(** * Comment-thread acquisition pipeline: a shallow embedding

    The development embeds the Python sources [api/_youtube.py] and
    [api/comments.py] as Rocq functions and proves the properties of the
    identifier resolver, the parameter normaliser, the thread aggregator
    and the request handler.

    Conventions of the embedding:
    - a Python [str] is a [string] of code points below 256, on which
      [str.lower] and [str.strip] are modelled;
    - a Python [int] is a [Z] (unbounded);
    - a decoded JSON document is a [json] value; a Python [dict] is an
      association list read from the left (first binding wins) and its
      length is the number of distinct keys; JSON numbers are integers;
    - a raised exception is the outcome [Raise e]; it aborts the enclosing
      computation exactly as in Python unless a handler is written out;
    - [urllib.parse], [int(str)] and the remote service are library or
      external code: the functions that use them take them as parameters
      (section variables), so every general theorem holds for whatever these
      do.  Small reference models of them are given for the concrete runs. *)

From Stdlib Require Import ZArith List String Ascii Bool Lia.
Import ListNotations.
Local Open Scope string_scope.
Local Open Scope list_scope.
Local Open Scope Z_scope.
Set Warnings "-register-all".

(** ** Python values and exceptions *)

Inductive exn : Type :=
| AttributeError
| TypeError
| ValueError
| RuntimeError (msg : string)
| RequestException (msg : string).

(** Result of running a piece of the program.  [OutOfFuel] is not a Python
    outcome: it marks a run of a fuel-bounded loop model that was cut short,
    and is shown below never to occur. *)
Inductive outcome (A : Type) : Type :=
| Ok (a : A)
| Raise (e : exn)
| OutOfFuel.
Arguments Ok {A} a.
Arguments Raise {A} e.
Arguments OutOfFuel {A}.

Definition bindO {A B} (c : outcome A) (k : A -> outcome B) : outcome B :=
  match c with
  | Ok a => k a
  | Raise e => Raise e
  | OutOfFuel => OutOfFuel
  end.

Declare Scope py_scope.
Delimit Scope py_scope with py.
Notation "'let*' x ':=' c 'in' k" := (bindO c (fun x => k))
  (at level 10, x name, c at level 100, k at level 200) : py_scope.
Local Open Scope py_scope.

Fixpoint mapO {A B} (f : A -> outcome B) (l : list A) : outcome (list B) :=
  match l with
  | [] => Ok []
  | x :: l' =>
      let* y := f x in
      let* ys := mapO f l' in
      Ok (y :: ys)
  end.

Inductive json : Type :=
| JNull
| JBool (b : bool)
| JInt (z : Z)
| JStr (s : string)
| JList (l : list json)
| JObj (o : list (string * json)).

Definition dict := list (string * json).

Fixpoint dict_get (k : string) (o : dict) : option json :=
  match o with
  | [] => None
  | (k', v) :: o' => if String.eqb k k' then Some v else dict_get k o'
  end.

Definition dict_keys (o : dict) : list string :=
  nodup string_dec (map fst o).

(** [x.get(k, default)]: only a dict has the method. *)
Definition py_get (j : json) (k : string) (default : json) : outcome json :=
  match j with
  | JObj o => Ok (match dict_get k o with Some v => v | None => default end)
  | _ => Raise AttributeError
  end.

(** Truth value of a Python object ([if x], [not x], [x or y]). *)
Definition py_truthy (j : json) : bool :=
  match j with
  | JNull => false
  | JBool b => b
  | JInt z => negb (z =? 0)
  | JStr s => negb (String.eqb s "")
  | JList l => match l with [] => false | _ => true end
  | JObj o => match o with [] => false | _ => true end
  end.

Definition py_or (x y : json) : json := if py_truthy x then x else y.

(** [for r in x]: the elements visited. *)
Definition py_iter (j : json) : outcome (list json) :=
  match j with
  | JList l => Ok l
  | JObj o => Ok (map JStr (dict_keys o))
  | JStr s => Ok (map (fun c => JStr (String c EmptyString)) (list_ascii_of_string s))
  | _ => Raise TypeError
  end.

(** [len(x)] *)
Definition py_len (j : json) : outcome Z :=
  match j with
  | JList l => Ok (Z.of_nat (List.length l))
  | JObj o => Ok (Z.of_nat (List.length (dict_keys o)))
  | JStr s => Ok (Z.of_nat (String.length s))
  | _ => Raise TypeError
  end.

(** [n < x] for an integer [n]: [bool] is a subtype of [int]. *)
Definition py_int_lt (n : Z) (j : json) : outcome bool :=
  match j with
  | JInt z => Ok (n <? z)
  | JBool b => Ok (n <? (if b then 1 else 0))
  | _ => Raise TypeError
  end.

(** ** Strings *)

(** The characters below code point 256 that [str.lower] changes: [A-Z] and
    the upper-case letters of Latin-1 (all of 192..222 but the sign 215);
    each is 32 below its lower-case letter. *)
Definition is_upper (a : ascii) : bool :=
  let n := nat_of_ascii a in
  ((65 <=? n) && (n <=? 90)
   || (192 <=? n) && (n <=? 222) && negb (n =? 215))%nat.

Definition lower_ascii (a : ascii) : ascii :=
  if is_upper a then ascii_of_nat (nat_of_ascii a + 32) else a.

(** [s.lower()] *)
Fixpoint lower (s : string) : string :=
  match s with
  | EmptyString => EmptyString
  | String a s' => String (lower_ascii a) (lower s')
  end.

(** [str.isspace] on one character *)
Definition is_space (a : ascii) : bool :=
  let n := nat_of_ascii a in
  ((9 <=? n) && (n <=? 13) || (28 <=? n) && (n <=? 32)
   || (n =? 133) || (n =? 160))%nat.

Fixpoint lstrip_by (p : ascii -> bool) (s : string) : string :=
  match s with
  | EmptyString => EmptyString
  | String a s' => if p a then lstrip_by p s' else s
  end.

Definition string_rev (s : string) : string :=
  string_of_list_ascii (rev (list_ascii_of_string s)).

Definition rstrip_by (p : ascii -> bool) (s : string) : string :=
  string_rev (lstrip_by p (string_rev s)).

(** [s.strip()] *)
Definition strip (s : string) : string := rstrip_by is_space (lstrip_by is_space s).

(** [s.lstrip("/")] *)
Definition lstrip_slash (s : string) : string := lstrip_by (Ascii.eqb "/") s.

(** [s.endswith(suffix)] *)
Definition endswith (s suffix : string) : bool :=
  let n := String.length s in
  let m := String.length suffix in
  (m <=? n)%nat && String.eqb (substring (n - m) m s) suffix.

(** *** The two regular-expression searches *)

(** The character class [[A-Za-z0-9_-]]. *)
Definition is_id_char (a : ascii) : bool :=
  let n := nat_of_ascii a in
  ((65 <=? n) && (n <=? 90) || (97 <=? n) && (n <=? 122)
   || (48 <=? n) && (n <=? 57) || (n =? 95) || (n =? 45))%nat.

(** Match [[A-Za-z0-9_-]{n}] at the head of [s]; the matched text. *)
Fixpoint match_id_run (n : nat) (s : string) : option string :=
  match n with
  | O => Some EmptyString
  | S n' =>
      match s with
      | EmptyString => None
      | String a s' =>
          if is_id_char a then
            match match_id_run n' s' with
            | Some r => Some (String a r)
            | None => None
            end
          else None
      end
  end.

(** [re.search(r"([A-Za-z0-9_-]{11})", s)]: group 1 of the leftmost match. *)
Fixpoint search_id11 (s : string) : option string :=
  match match_id_run 11 s with
  | Some r => Some r
  | None =>
      match s with
      | EmptyString => None
      | String _ s' => search_id11 s'
      end
  end.

Fixpoint strip_prefix (p s : string) : option string :=
  match p with
  | EmptyString => Some s
  | String a p' =>
      match s with
      | EmptyString => None
      | String b s' => if Ascii.eqb a b then strip_prefix p' s' else None
      end
  end.

Definition match_embed (s : string) : option string :=
  match strip_prefix "/embed/" s with
  | Some rest => match_id_run 11 rest
  | None => None
  end.

(** [re.search(r"/embed/([A-Za-z0-9_-]{11})", s)]: group 1 of the leftmost match. *)
Fixpoint search_embed (s : string) : option string :=
  match match_embed s with
  | Some r => Some r
  | None =>
      match s with
      | EmptyString => None
      | String _ s' => search_embed s'
      end
  end.

(** ** Identifier resolver and parameter normaliser ([_youtube.py]) *)

(** The six components of [urllib.parse.urlparse]'s result. *)
Record ParseResult : Type := mkParse {
  scheme : string;
  netloc : string;
  path : string;
  params : string;
  query : string;
  fragment : string
}.

(** The dict of lists [urllib.parse.parse_qs] returns. *)
Definition qsdict := list (string * list string).

Fixpoint qs_get (k : string) (qs : qsdict) : option (list string) :=
  match qs with
  | [] => None
  | (k', v) :: qs' => if String.eqb k k' then Some v else qs_get k qs'
  end.

Section Urllib.

(** [urllib.parse.urlparse] and [urllib.parse.parse_qs]; [None] when the
    library raises. *)
Variable urlparse : string -> option ParseResult.
Variable parse_qs : string -> option qsdict.

Definition extract_video_id_from_url (url : string) : option string :=
  match urlparse url with
  | None => None (* except Exception: pass *)
  | Some parsed =>
      if String.eqb (netloc parsed) "youtu.be" then
        let vid := lstrip_slash (path parsed) in
        if String.eqb vid "" then None else Some vid
      else
        let fallback := search_id11 url in
        if endswith (netloc parsed) "youtube.com" then
          match parse_qs (query parsed) with
          | None => None (* except Exception: pass *)
          | Some qs =>
              match qs_get "v" qs with
              | Some (v0 :: _) => Some v0
              | _ =>
                  match search_embed (path parsed) with
                  | Some m => Some m
                  | None => fallback
                  end
              end
          end
        else fallback
  end.

End Urllib.

Definition normalize_params (max_results : option Z) (order : option string)
  : Z * string :=
  let mr := match max_results with
            | None => 20
            | Some n => Z.max 1 (Z.min n 100)
            end in
  let od := lower (match order with
                   | Some o => if String.eqb o "" then "relevance" else o
                   | None => "relevance"
                   end) in
  let od := if String.eqb od "relevance" || String.eqb od "time"
            then od else "relevance" in
  (mr, od).

(** ** Normalised document *)

Record comment : Type := mkComment {
  comment_id : json;
  text : json;
  author : json;
  authorChannelId : json;
  publishedAt : json;
  updatedAt : json;
  likeCount : json;
  isReply : bool;
  parentId : json
}.

Record thread : Type := mkThread {
  threadId : json;
  topLevelComment : comment;
  replyCount : json;
  replies : list comment
}.

Record comment_page : Type := mkPage {
  videoId : string;
  nextPageToken : json;
  threads : list thread
}.

(** The dict built for a reply, from an inline reply ([_youtube.py] lines
    108-122) and from a fetched one (lines 142-156): the same expression. *)
Definition reply_comment (r : json) : outcome comment :=
  let* rs := py_get r "snippet" (JObj []) in
  let* i := py_get r "id" JNull in
  let* t := py_get rs "textDisplay" JNull in
  let* a := py_get rs "authorDisplayName" JNull in
  let* ac := py_get rs "authorChannelId" JNull in
  let* acv := py_get (py_or ac (JObj [])) "value" JNull in
  let* p := py_get rs "publishedAt" JNull in
  let* u := py_get rs "updatedAt" JNull in
  let* lc := py_get rs "likeCount" (JInt 0) in
  let* par := py_get rs "parentId" JNull in
  Ok (mkComment i t a acv p u lc true par).

(** [top_comment] (lines 92-102), from the thread's [snippet] and the
    top-level comment's own snippet [top]. *)
Definition top_comment_of (snippet top : json) : outcome comment :=
  let* tlc := py_get snippet "topLevelComment" (JObj []) in
  let* i := py_get tlc "id" JNull in
  let* t := py_get top "textDisplay" JNull in
  let* a := py_get top "authorDisplayName" JNull in
  let* ac := py_get top "authorChannelId" JNull in
  let* acv := py_get (py_or ac (JObj [])) "value" JNull in
  let* p := py_get top "publishedAt" JNull in
  let* u := py_get top "updatedAt" JNull in
  let* lc := py_get top "likeCount" (JInt 0) in
  Ok (mkComment i t a acv p u lc false JNull).

(** The replies embedded in a thread item (lines 104-122). *)
Definition inline_replies (item : json) : outcome (list comment) :=
  let* rep := py_get item "replies" JNull in
  let* cs := py_get (py_or rep (JObj [])) "comments" JNull in
  let* rs := py_iter (py_or cs (JList [])) in
  mapO reply_comment rs.

(** ** Upstream client *)

(** One GET against the remote service: the endpoint with the parameters
    that vary ([part], [textFormat] are constants of each endpoint). *)
Inductive request : Type :=
| CommentThreads (video_id : string) (max_results : Z) (order : string)
                 (key : string) (page_token : option string)
| Comments (parent_id : json) (max_results : Z) (key : string)
           (page_token : option json).

(** What the GET yields: the decoded body, or an exception (non-2xx status,
    transport failure, time-out, undecodable body). *)
Inductive reply : Type :=
| Resp (body : json)
| Fail (e : exn).

Definition is_comments_call (c : request * reply) : bool :=
  match fst c with Comments _ _ _ _ => true | CommentThreads _ _ _ _ _ => false end.

Section Aggregator.

(** The remote service: any state, any answer to any request. *)
Variable World : Type.
Variable upstream : request -> World -> reply * World.

(** The state a request handler runs in: the service, and the log of the
    calls made so far with their answers. *)
Record io_state : Type := mkIO {
  world : World;
  trace : list (request * reply)
}.

Definition M (A : Type) : Type := io_state -> outcome A * io_state.

Definition ret {A} (a : A) : M A := fun st => (Ok a, st).

Definition bind {A B} (c : M A) (k : A -> M B) : M B :=
  fun st =>
    match c st with
    | (Ok a, st') => k a st'
    | (Raise e, st') => (Raise e, st')
    | (OutOfFuel, st') => (OutOfFuel, st')
    end.

Definition lift {A} (c : outcome A) : M A := fun st => (c, st).

Notation "x <- c ;; k" := (bind c (fun x => k))
  (at level 61, c at next level, right associativity).

Fixpoint mapM {A B} (f : A -> M B) (l : list A) : M (list B) :=
  match l with
  | [] => ret []
  | x :: l' =>
      y <- f x ;;
      ys <- mapM f l' ;;
      ret (y :: ys)
  end.

(** [_http_get]: one call, logged. *)
Definition _http_get (req : request) : M json :=
  fun st =>
    let (r, w) := upstream req (world st) in
    let st' := mkIO w (trace st ++ [(req, r)]) in
    match r with
    | Resp j => (Ok j, st')
    | Fail e => (Raise e, st')
    end.

(** The [while fetched < max_replies_per_thread] loop (lines 129-160).
    [fuel] bounds the number of iterations of the model. *)
Fixpoint reply_loop (fuel : nat) (parent_id : json) (api_key : string)
    (max_replies_per_thread fetched : Z) (next_token : json)
    (replies_payload : list comment) : M (list comment) :=
  if fetched <? max_replies_per_thread then
    match fuel with
    | O => fun st => (OutOfFuel, st)
    | S fuel' =>
        let limit := Z.min 100 (max_replies_per_thread - fetched) in
        let tok := if py_truthy next_token then Some next_token else None in
        rdata <- _http_get (Comments parent_id limit api_key tok) ;;
        ritems <- lift (py_get rdata "items" (JList [])) ;;
        rs <- lift (py_iter ritems) ;;
        new <- lift (mapO reply_comment rs) ;;
        n <- lift (py_len ritems) ;;
        next_token' <- lift (py_get rdata "nextPageToken" JNull) ;;
        if negb (py_truthy next_token') || negb (py_truthy ritems)
        then ret (replies_payload ++ new)
        else reply_loop fuel' parent_id api_key max_replies_per_thread
               (fetched + n) next_token' (replies_payload ++ new)
    end
  else ret replies_payload.

(** The body of [for item in items] (lines 87-169). *)
Definition process_thread (api_key : string) (include_replies : bool)
    (max_replies_per_thread : Z) (item : json) : M thread :=
  snippet <- lift (py_get item "snippet" (JObj [])) ;;
  tlc <- lift (py_get snippet "topLevelComment" (JObj [])) ;;
  top <- lift (py_get tlc "snippet" (JObj [])) ;;
  thread_id <- lift (py_get item "id" JNull) ;;
  reply_count <- lift (py_get snippet "totalReplyCount" (JInt 0)) ;;
  top_comment <- lift (top_comment_of snippet top) ;;
  inline <- lift (inline_replies item) ;;
  replies_payload <-
    (if include_replies && py_truthy reply_count then
       more <- lift (py_int_lt (Z.of_nat (List.length inline)) reply_count) ;;
       if (more : bool) then
         reply_loop (Z.to_nat max_replies_per_thread) (comment_id top_comment)
           api_key max_replies_per_thread 0 JNull inline
       else ret inline
     else ret inline) ;;
  ret (mkThread thread_id top_comment reply_count replies_payload).

Definition fetch_comment_threads (video_id api_key : string) (max_results : Z)
    (page_token : option string) (order : string) (include_replies : bool)
    (max_replies_per_thread : Z) : M comment_page :=
  let tok := match page_token with
             | Some t => if String.eqb t "" then None else Some t
             | None => None
             end in
  data <- _http_get (CommentThreads video_id max_results order api_key tok) ;;
  items <- lift (py_get data "items" (JList [])) ;;
  next_page_token <- lift (py_get data "nextPageToken" JNull) ;;
  its <- lift (py_iter items) ;;
  normalized_threads <-
    mapM (process_thread api_key include_replies max_replies_per_thread) its ;;
  ret (mkPage video_id next_page_token normalized_threads).

End Aggregator.

Arguments mkIO {World} world trace.
Arguments world {World} i.
Arguments trace {World} i.
Arguments ret {World A} a st.
Arguments bind {World A B} c k st.
Arguments lift {World A} c st.
Arguments mapM {World A B} f l st.
Arguments _http_get {World} upstream req st.
Arguments reply_loop {World} upstream fuel parent_id api_key
  max_replies_per_thread fetched next_token replies_payload st.
Arguments process_thread {World} upstream api_key include_replies
  max_replies_per_thread item st.
Arguments fetch_comment_threads {World} upstream video_id api_key max_results
  page_token order include_replies max_replies_per_thread st.

Notation "x <- c ;; k" := (bind c (fun x => k))
  (at level 61, c at next level, right associativity) : py_scope.

(** ** Request handler ([comments.py]) *)

Record query_params : Type := mkQuery {
  q_url : string;
  q_videoId : string;
  q_pageToken : option string;
  q_order : option string;
  q_includeReplies : bool;
  q_maxResults : option Z;
  q_maxRepliesPerThread : Z
}.

(** [{"error": ...}], [{"error": ..., "details": str(ex)}] or the page. *)
Inductive body : Type :=
| ErrorBody (error : string)
| ErrorDetailsBody (error : string) (details : exn)
| PageBody (page : comment_page).

Record response : Type := mkResponse {
  status : Z;
  payload : body
}.

Definition has_error_field (b : body) : bool :=
  match b with
  | ErrorBody _ | ErrorDetailsBody _ _ => true
  | PageBody _ => false
  end.

Definition get_one (qs : qsdict) (name : string) : string :=
  match qs_get name qs with
  | Some (v0 :: _) => v0
  | _ => ""
  end.

Definition or_none (s : string) : option string :=
  if String.eqb s "" then None else Some s.

Definition missing_key_message : string :=
  "YOUTUBE_API_KEY environment variable is required to fetch YouTube comments.".

(** [get_env_api_key], from the value of the environment variable. *)
Definition get_env_api_key (environ : option string) : outcome string :=
  let api_key := strip (match environ with Some v => v | None => "" end) in
  if String.eqb api_key "" then Raise (RuntimeError missing_key_message)
  else Ok api_key.

Section Handler.

Variable urlparse : string -> option ParseResult.
Variable parse_qs : string -> option qsdict.
(** [int(s)] on a string; [None] when it raises [ValueError]. *)
Variable py_int : string -> option Z.
Variable World : Type.
Variable upstream : request -> World -> reply * World.

Definition int_of (s : string) : outcome Z :=
  match py_int s with
  | Some z => Ok z
  | None => Raise ValueError
  end.

Definition _parse_query (path : string) : outcome query_params :=
  match urlparse path with
  | None => Raise ValueError
  | Some parsed =>
      match parse_qs (query parsed) with
      | None => Raise ValueError
      | Some qs =>
          let* max_results :=
            (if String.eqb (get_one qs "maxResults") "" then Ok None
             else let* n := int_of (get_one qs "maxResults") in Ok (Some n)) in
          let* max_replies :=
            (if String.eqb (get_one qs "maxRepliesPerThread") "" then Ok 20
             else int_of (get_one qs "maxRepliesPerThread")) in
          Ok (mkQuery
                (strip (get_one qs "url"))
                (strip (get_one qs "videoId"))
                (or_none (strip (get_one qs "pageToken")))
                (or_none (strip (get_one qs "order")))
                (let v := lower (get_one qs "includeReplies") in
                 String.eqb v "1" || String.eqb v "true"
                 || String.eqb v "yes" || String.eqb v "on")
                max_results
                max_replies)
      end
  end.

(** The identifier the handler settles on (lines 54-56); [""] when none. *)
Definition resolve_video_id (q : query_params) : string :=
  if String.eqb (q_videoId q) "" && negb (String.eqb (q_url q) "") then
    match extract_video_id_from_url urlparse parse_qs (q_url q) with
    | Some v => v
    | None => ""
    end
  else q_videoId q.

(** The statements inside the outer [try] of [do_GET], up to the call of
    [_send] that ends each path: the result is the response handed to that
    [_send]. *)
Definition do_GET_try (environ : option string) (path : string)
  : M World response :=
  q <- lift (_parse_query path) ;;
  let video_id := resolve_video_id q in
  if String.eqb video_id "" then
    ret (mkResponse 400
           (ErrorBody "Missing 'videoId' or parsable 'url' query param."))
  else
    match get_env_api_key environ with
    | Raise (RuntimeError msg) => ret (mkResponse 500 (ErrorBody msg))
    | key =>
        api_key <- lift key ;;
        let (max_results, order) :=
          normalize_params (q_maxResults q) (q_order q) in
        data <- fetch_comment_threads upstream video_id api_key max_results
                  (q_pageToken q) order (q_includeReplies q)
                  (q_maxRepliesPerThread q) ;;
        ret (mkResponse 200 (PageBody data))
    end.

(** [do_GET] up to its first [_send]: the response the handler settles on
    (the outer handler turns an exception of the statements above into a
    500) and the state after the upstream calls.  Writing the response out,
    and what happens when [_send] itself raises, is [serve_GET] below. *)
Definition do_GET (environ : option string) (path : string)
  : M World response :=
  fun st =>
    match do_GET_try environ path st with
    | (Raise ex, st') =>
        (Ok (mkResponse 500 (ErrorDetailsBody "Internal server error" ex)), st')
    | r => r
    end.

End Handler.

Arguments do_GET_try urlparse parse_qs py_int {World} upstream environ path st.
Arguments do_GET urlparse parse_qs py_int {World} upstream environ path st.

(** ** Reference models of the library functions, for concrete runs

    They follow the library's algorithms on URLs without brackets, blanks or
    control characters, and on queries without percent escapes.  No general
    theorem below depends on them. *)

Module Ref.

Fixpoint split_first (c : ascii) (s : string) : option (string * string) :=
  match s with
  | EmptyString => None
  | String a s' =>
      if Ascii.eqb a c then Some (EmptyString, s')
      else match split_first c s' with
           | Some (l, r) => Some (String a l, r)
           | None => None
           end
  end.

Fixpoint span (p : ascii -> bool) (s : string) : string * string :=
  match s with
  | EmptyString => (EmptyString, EmptyString)
  | String a s' =>
      if p a then let (l, r) := span p s' in (String a l, r)
      else (EmptyString, s)
  end.

Fixpoint all_chars (p : ascii -> bool) (s : string) : bool :=
  match s with
  | EmptyString => true
  | String a s' => p a && all_chars p s'
  end.

Definition is_alpha (a : ascii) : bool :=
  let n := nat_of_ascii a in
  ((65 <=? n) && (n <=? 90) || (97 <=? n) && (n <=? 122))%nat.

Definition is_digit (a : ascii) : bool :=
  let n := nat_of_ascii a in ((48 <=? n) && (n <=? 57))%nat.

Definition is_scheme_char (a : ascii) : bool :=
  is_alpha a || is_digit a || Ascii.eqb a "+" || Ascii.eqb a "-" || Ascii.eqb a ".".

Definition uses_params : list string :=
  [""; "ftp"; "hdl"; "prospero"; "http"; "imap"; "https"; "shttp"; "rtsp";
   "rtspu"; "sip"; "sips"; "mms"; "sftp"; "tel"].

Definition split_scheme (url : string) : string * string :=
  match split_first ":" url with
  | Some (String a pre, rest) =>
      if is_alpha a && all_chars is_scheme_char pre
      then (lower (String a pre), rest) else ("", url)
  | _ => ("", url)
  end.

Definition split_netloc (url : string) : string * string :=
  match url with
  | String "/" (String "/" rest) =>
      span (fun c => negb (Ascii.eqb c "/" || Ascii.eqb c "?" || Ascii.eqb c "#")) rest
  | _ => ("", url)
  end.

Definition split_or (c : ascii) (s : string) : string * string :=
  match split_first c s with
  | Some lr => lr
  | None => (s, "")
  end.

(** [_splitparams]: the parameters of the last path segment. *)
Definition split_params (url : string) : string * string :=
  match split_first "/" (string_rev url) with
  | Some (tail_rev, head_rev) =>
      match split_first ";" (string_rev tail_rev) with
      | Some (l, r) => ((string_rev head_rev ++ "/" ++ l)%string, r)
      | None => (url, "")
      end
  | None => split_or ";" url
  end.

Definition urlparse (url : string) : option ParseResult :=
  let (sch, url1) := split_scheme url in
  let (loc, url2) := split_netloc url1 in
  let (url3, frag) := split_or "#" url2 in
  let (url4, qry) := split_or "?" url3 in
  let (pth, prm) :=
    if existsb (String.eqb sch) uses_params then split_params url4
    else (url4, "") in
  Some (mkParse sch loc pth prm qry frag).

Fixpoint split_all_aux (c : ascii) (cur : string) (s : string) : list string :=
  match s with
  | EmptyString => [string_rev cur]
  | String a s' =>
      if Ascii.eqb a c then string_rev cur :: split_all_aux c EmptyString s'
      else split_all_aux c (String a cur) s'
  end.

(** [s.split(c)] *)
Definition split_all (c : ascii) (s : string) : list string :=
  split_all_aux c EmptyString s.

Fixpoint plus_to_space (s : string) : string :=
  match s with
  | EmptyString => EmptyString
  | String a s' => String (if Ascii.eqb a "+" then " "%char else a) (plus_to_space s')
  end.

Fixpoint qs_add (k v : string) (qs : qsdict) : qsdict :=
  match qs with
  | [] => [(k, [v])]
  | (k', vs) :: qs' =>
      if String.eqb k k' then (k', vs ++ [v]) :: qs'
      else (k', vs) :: qs_add k v qs'
  end.

(** [parse_qs] with its default arguments: pairs without [=] or with a blank
    value are dropped. *)
Definition parse_qs (qs : string) : option qsdict :=
  Some (fold_left
          (fun acc name_value =>
             match split_first "=" name_value with
             | Some (n, v) =>
                 if String.eqb v "" then acc
                 else qs_add (plus_to_space n) (plus_to_space v) acc
             | None => acc
             end)
          (split_all "&" qs) []).

Fixpoint digits_val (acc : Z) (after_digit : bool) (s : string) : option Z :=
  match s with
  | EmptyString => if after_digit then Some acc else None
  | String a s' =>
      if is_digit a
      then digits_val (acc * 10 + Z.of_nat (nat_of_ascii a - 48)) true s'
      else if Ascii.eqb a "_" && after_digit then digits_val acc false s'
      else None
  end.

(** [int(s)] for a decimal literal. *)
Definition py_int (s : string) : option Z :=
  match strip s with
  | String "-" ds => option_map Z.opp (digits_val 0 false ds)
  | String "+" ds => digits_val 0 false ds
  | ds => digits_val 0 false ds
  end.

End Ref.

(** * Properties *)

(** ** Parameter normaliser *)

(** The clamp of the specification: below [lo] becomes [lo], above [hi]
    becomes [hi]. *)
Definition clamp (n lo hi : Z) : Z :=
  if n <? lo then lo else if hi <? n then hi else n.

(** The effective order as the specification words it. *)
Definition effective_order_spec (order : option string) : string :=
  match order with
  | None => "relevance"
  | Some o => if String.eqb (lower o) "time" then "time" else "relevance"
  end.

(** C6: for every integer [n], [normalize_params] returns
    [clamp n 1 100] as the effective maximum, and 20 when the maximum is
    absent, whatever the order. *)
Theorem normalize_params_max_clamped :
  forall (n : Z) (order : option string),
    fst (normalize_params (Some n) order) = clamp n 1 100
    /\ fst (normalize_params None order) = 20.
Proof.
  intros n order; split; [|reflexivity].
  unfold normalize_params, clamp; cbn [fst].
  destruct (n <? 1) eqn:Hlo; [apply Z.ltb_lt in Hlo; lia|].
  apply Z.ltb_ge in Hlo.
  destruct (100 <? n) eqn:Hhi;
    [apply Z.ltb_lt in Hhi | apply Z.ltb_ge in Hhi]; lia.
Qed.

(** C7: for every order input the effective order is ["relevance"] or
    ["time"]; it is ["time"] exactly when the input lower-cases to ["time"],
    and ["relevance"] for an absent input and for every other value. *)
Theorem normalize_params_order :
  forall (max_results : option Z) (order : option string),
    snd (normalize_params max_results order) = effective_order_spec order
    /\ (snd (normalize_params max_results order) = "relevance"
        \/ snd (normalize_params max_results order) = "time")
    /\ snd (normalize_params max_results None) = "relevance".
Proof.
  intros mr order.
  assert (Heq : snd (normalize_params mr order) = effective_order_spec order).
  { unfold normalize_params, effective_order_spec; cbn [snd].
    destruct order as [o|]; [|reflexivity].
    destruct (String.eqb o "") eqn:He.
    - apply String.eqb_eq in He; subst o; reflexivity.
    - destruct (String.eqb (lower o) "relevance") eqn:Hr.
      + apply String.eqb_eq in Hr; rewrite Hr; reflexivity.
      + cbn [orb].
        destruct (String.eqb (lower o) "time") eqn:Ht; [|reflexivity].
        apply String.eqb_eq in Ht; exact Ht. }
  split; [exact Heq|]. split; [|reflexivity].
  rewrite Heq; unfold effective_order_spec.
  destruct order as [o|]; [|left; reflexivity].
  destruct (String.eqb (lower o) "time"); [right | left]; reflexivity.
Qed.

(** ** Identifier resolver *)

(** The first path segment, stripped of its leading slash. *)
Fixpoint up_to_slash (s : string) : string :=
  match s with
  | EmptyString => EmptyString
  | String a s' => if Ascii.eqb a "/" then EmptyString else String a (up_to_slash s')
  end.

Definition first_path_segment (p : string) : string :=
  match p with
  | String "/" s => up_to_slash s
  | _ => up_to_slash p
  end.

(** The short-link rule as the specification words it: the first path
    segment, absent when that segment is empty. *)
Definition short_link_rule_spec
    (urlparse : string -> option ParseResult)
    (parse_qs : string -> option qsdict) (url : string) : Prop :=
  forall parsed,
    urlparse url = Some parsed ->
    netloc parsed = "youtu.be" ->
    extract_video_id_from_url urlparse parse_qs url
    = or_none (first_path_segment (path parsed)).

(** C2, as stated, fails: on [https://youtu.be/abc/def] the resolver returns
    the whole path ["abc/def"], not the first segment ["abc"]. *)
Lemma short_link_first_segment_counterexample :
  extract_video_id_from_url Ref.urlparse Ref.parse_qs "https://youtu.be/abc/def"
  = Some "abc/def"
  /\ or_none (first_path_segment "/abc/def") = Some "abc"
  /\ ~ short_link_rule_spec Ref.urlparse Ref.parse_qs "https://youtu.be/abc/def".
Proof.
  split; [reflexivity|]. split; [reflexivity|].
  intro H.
  specialize (H (mkParse "https" "youtu.be" "/abc/def" "" "" "")
                eq_refl eq_refl).
  vm_compute in H. discriminate H.
Qed.

(** C2, amended: when the host is exactly [youtu.be] the resolver returns the
    whole path with all its leading slashes stripped, and absent when nothing
    is left; so a path [/<id>] whose [<id>] does not start with a slash gives
    [<id>] verbatim. *)
Theorem extract_video_id_short_link :
  forall (urlparse : string -> option ParseResult)
         (parse_qs : string -> option qsdict) (url : string)
         (parsed : ParseResult),
    urlparse url = Some parsed ->
    netloc parsed = "youtu.be" ->
    extract_video_id_from_url urlparse parse_qs url
    = or_none (lstrip_slash (path parsed))
    /\ (lstrip_slash (path parsed) = "" ->
        extract_video_id_from_url urlparse parse_qs url = None)
    /\ (forall a id,
          path parsed = String "/" (String a id) -> a <> "/"%char ->
          extract_video_id_from_url urlparse parse_qs url = Some (String a id)).
Proof.
  intros urlparse parse_qs url parsed Hp Hn.
  assert (Heq : extract_video_id_from_url urlparse parse_qs url
                = or_none (lstrip_slash (path parsed))).
  { unfold extract_video_id_from_url. rewrite Hp, Hn. reflexivity. }
  split; [exact Heq|]. split.
  - intro He. rewrite Heq, He. reflexivity.
  - intros a id Hpath Ha. rewrite Heq, Hpath.
    unfold lstrip_slash; cbn [lstrip_by].
    rewrite Ascii.eqb_refl.
    destruct (Ascii.eqb "/" a) eqn:E.
    + apply Ascii.eqb_eq in E. congruence.
    + reflexivity.
Qed.

Lemma extract_video_id_short_link_witness :
  extract_video_id_from_url Ref.urlparse Ref.parse_qs "https://youtu.be/dQw4w9WgXcQ"
  = Some "dQw4w9WgXcQ".
Proof.
  exact (proj1 (extract_video_id_short_link Ref.urlparse Ref.parse_qs
                  "https://youtu.be/dQw4w9WgXcQ"
                  (mkParse "https" "youtu.be" "/dQw4w9WgXcQ" "" "" "")
                  eq_refl eq_refl)).
Defined.

(** ** Reply loop: one batch, and the runs of the loop *)

(** What one iteration reads off a reply-listing response: the replies to
    append, [len(ritems)], the continuation token and [ritems] itself. *)
Definition read_batch (rdata : json)
  : outcome (list comment * Z * json * json) :=
  let* ritems := py_get rdata "items" (JList []) in
  let* rs := py_iter ritems in
  let* new := mapO reply_comment rs in
  let* n := py_len ritems in
  let* tok := py_get rdata "nextPageToken" JNull in
  Ok (new, n, tok, ritems).

Definition read_reply (r : reply) : outcome (list comment * Z * json * json) :=
  match r with
  | Resp rdata => read_batch rdata
  | Fail e => Raise e
  end.

(** The [break] test of line 159. *)
Definition breaks (tok ritems : json) : bool :=
  negb (py_truthy tok) || negb (py_truthy ritems).

(** The request an iteration issues. *)
Definition batch_request (parent_id : json) (api_key : string)
    (max_replies_per_thread fetched : Z) (next_token : json) : request :=
  Comments parent_id (Z.min 100 (max_replies_per_thread - fetched)) api_key
    (if py_truthy next_token then Some next_token else None).

Section LoopRuns.

Variable World : Type.
Variable upstream : request -> World -> reply * World.
Variable parent_id : json.
Variable api_key : string.
Variable max_replies_per_thread : Z.

(** Big-step runs of the loop from [fetched], [next_token],
    [replies_payload] and a state of the service: the calls made, the
    outcome and the state of the service afterwards. *)
Inductive loop_run :
  Z -> json -> list comment -> World ->
  list (request * reply) -> outcome (list comment) -> World -> Prop :=
| run_exit : forall fetched tok payload w,
    max_replies_per_thread <= fetched ->
    loop_run fetched tok payload w [] (Ok payload) w
| run_raise : forall fetched tok payload w r w' e,
    fetched < max_replies_per_thread ->
    upstream (batch_request parent_id api_key max_replies_per_thread fetched tok) w
    = (r, w') ->
    read_reply r = Raise e ->
    loop_run fetched tok payload w
      [(batch_request parent_id api_key max_replies_per_thread fetched tok, r)]
      (Raise e) w'
| run_break : forall fetched tok payload w r w' new n tok' ritems,
    fetched < max_replies_per_thread ->
    upstream (batch_request parent_id api_key max_replies_per_thread fetched tok) w
    = (r, w') ->
    read_reply r = Ok (new, n, tok', ritems) ->
    breaks tok' ritems = true ->
    loop_run fetched tok payload w
      [(batch_request parent_id api_key max_replies_per_thread fetched tok, r)]
      (Ok (payload ++ new)) w'
| run_again : forall fetched tok payload w r w' new n tok' ritems calls out w'',
    fetched < max_replies_per_thread ->
    upstream (batch_request parent_id api_key max_replies_per_thread fetched tok) w
    = (r, w') ->
    read_reply r = Ok (new, n, tok', ritems) ->
    breaks tok' ritems = false ->
    loop_run (fetched + n) tok' (payload ++ new) w' calls out w'' ->
    loop_run fetched tok payload w
      ((batch_request parent_id api_key max_replies_per_thread fetched tok, r)
         :: calls)
      out w''.

Lemma read_batch_not_out_of_fuel :
  forall rdata, read_batch rdata <> OutOfFuel.
Proof.
  intros rdata; unfold read_batch.
  destruct (py_get rdata "items" (JList [])) as [ritems|e|] eqn:E1; cbn;
    [|discriminate|destruct rdata; discriminate E1].
  destruct (py_iter ritems) as [rs|e|] eqn:E2; cbn;
    [|discriminate|destruct ritems; discriminate E2].
  assert (Hm : forall l, mapO reply_comment l <> OutOfFuel).
  { induction l as [|x l IH]; cbn; [discriminate|].
    destruct (reply_comment x) as [c|e|] eqn:Ec; cbn; [|discriminate|].
    - destruct (mapO reply_comment l); cbn; [discriminate|discriminate|congruence].
    - exfalso. unfold reply_comment in Ec.
      repeat match type of Ec with
             | bindO ?c _ = _ =>
                 let E := fresh "E" in
                 destruct c eqn:E; cbn in Ec;
                 [ | discriminate Ec
                   | match type of E with
                     | py_get ?j _ _ = _ => destruct j; discriminate E
                     end ]
             end.
      discriminate Ec. }
  destruct (mapO reply_comment rs) as [new|e|] eqn:E3; cbn;
    [|discriminate|exfalso; exact (Hm _ E3)].
  destruct (py_len ritems) as [n|e|] eqn:E4; cbn;
    [|discriminate|destruct ritems; discriminate E4].
  destruct (py_get rdata "nextPageToken" JNull) as [tok|e|] eqn:E5; cbn;
    [discriminate|discriminate|destruct rdata; discriminate E5].
Qed.

(** One unfolding of the loop. *)
Lemma reply_loop_unfold :
  forall fuel fetched tok payload st,
    reply_loop upstream (S fuel) parent_id api_key max_replies_per_thread
      fetched tok payload st
    = if fetched <? max_replies_per_thread then
        let req := batch_request parent_id api_key max_replies_per_thread
                     fetched tok in
        let (r, w') := upstream req (world st) in
        let st' := mkIO w' (trace st ++ [(req, r)]) in
        match read_reply r with
        | Ok (new, n, tok', ritems) =>
            if breaks tok' ritems then (Ok (payload ++ new), st')
            else reply_loop upstream fuel parent_id api_key
                   max_replies_per_thread (fetched + n) tok' (payload ++ new) st'
        | Raise e => (Raise e, st')
        | OutOfFuel => (OutOfFuel, st')
        end
      else (Ok payload, st).
Proof.
  intros fuel fetched tok payload st.
  cbn [reply_loop].
  destruct (fetched <? max_replies_per_thread); [|reflexivity].
  unfold bind, _http_get, batch_request; cbn zeta.
  destruct (upstream _ (world st)) as [r w'].
  destruct r as [rdata|e]; [|reflexivity].
  unfold read_reply, read_batch, lift.
  destruct (py_get rdata "items" (JList [])) as [ritems|e|]; cbn [bindO];
    [|reflexivity|reflexivity].
  destruct (py_iter ritems) as [rs|e|]; cbn [bindO]; [|reflexivity|reflexivity].
  destruct (mapO reply_comment rs) as [new|e|]; cbn [bindO];
    [|reflexivity|reflexivity].
  destruct (py_len ritems) as [n|e|]; cbn [bindO]; [|reflexivity|reflexivity].
  destruct (py_get rdata "nextPageToken" JNull) as [tok'|e|]; cbn [bindO];
    [|reflexivity|reflexivity].
  unfold breaks, ret.
  destruct (negb (py_truthy tok') || negb (py_truthy ritems)); reflexivity.
Qed.

Lemma nodup_nonempty :
  forall (l : list string), l <> [] -> nodup string_dec l <> [].
Proof.
  intros l Hl E. destruct l as [|a l]; [congruence|].
  assert (Hin : In a (nodup string_dec (a :: l)))
    by (apply nodup_In; left; reflexivity).
  rewrite E in Hin. exact Hin.
Qed.

(** A truthy iterable has at least one element. *)
Lemma py_len_truthy :
  forall j n, py_len j = Ok n -> py_truthy j = (0 <? n).
Proof.
  intros j n H. destruct j as [| b | z | s | l | o]; cbn in H; try discriminate H;
    injection H as <-; cbn [py_truthy].
  - destruct s; reflexivity.
  - destruct l; reflexivity.
  - destruct o as [|kv o]; [reflexivity|].
    unfold dict_keys.
    destruct (nodup string_dec (map fst (kv :: o))) eqn:E.
    + exfalso. apply (nodup_nonempty (map fst (kv :: o))); [discriminate|exact E].
    + reflexivity.
Qed.

Lemma mapO_length :
  forall (A B : Type) (f : A -> outcome B) l l',
    mapO f l = Ok l' -> List.length l' = List.length l.
Proof.
  intros A B f l; induction l as [|x l IH]; intros l' H; cbn in H.
  - injection H as <-; reflexivity.
  - destruct (f x) as [y| |]; cbn in H; try discriminate H.
    destruct (mapO f l) as [ys| |]; cbn in H; try discriminate H.
    injection H as <-. cbn. rewrite (IH ys eq_refl). reflexivity.
Qed.

(** A batch that is read appends exactly [len(ritems)] replies. *)
Lemma read_batch_length :
  forall rdata new n tok ritems,
    read_batch rdata = Ok (new, n, tok, ritems) ->
    Z.of_nat (List.length new) = n /\ py_len ritems = Ok n.
Proof.
  intros rdata new n tok ritems H. unfold read_batch in H.
  destruct (py_get rdata "items" (JList [])) as [ritems'| |]; cbn in H;
    try discriminate H.
  destruct (py_iter ritems') as [rs| |] eqn:Ei; cbn in H; try discriminate H.
  destruct (mapO reply_comment rs) as [new'| |] eqn:Em; cbn in H;
    try discriminate H.
  destruct (py_len ritems') as [n'| |] eqn:El; cbn in H; try discriminate H.
  destruct (py_get rdata "nextPageToken" JNull) as [tok'| |]; cbn in H;
    try discriminate H.
  injection H as <- <- <- <-. split; [|exact El].
  apply mapO_length in Em as Hlen. rewrite Hlen.
  destruct ritems' as [| b | z | s | l | o]; cbn in Ei, El; try discriminate Ei;
    injection Ei as <-; injection El as <-.
  - destruct (list_ascii_of_string s) as [|a cs] eqn:Es.
    + destruct s; [reflexivity|discriminate Es].
    + cbn in Em. discriminate Em.
  - reflexivity.
  - destruct (dict_keys o) as [|k ks]; [reflexivity|]. cbn in Em. discriminate Em.
Qed.

Lemma breaks_false_progress :
  forall r new n tok ritems,
    read_reply r = Ok (new, n, tok, ritems) ->
    breaks tok ritems = false ->
    py_truthy tok = true /\ 1 <= n.
Proof.
  intros r new n tok ritems Hr Hb.
  destruct r as [rdata|e]; [|discriminate Hr]. cbn in Hr.
  apply read_batch_length in Hr as [_ Hlen].
  unfold breaks in Hb. apply orb_false_elim in Hb as [Ht Hi].
  apply negb_false_iff in Ht, Hi. split; [exact Ht|].
  rewrite (py_len_truthy _ _ Hlen) in Hi. apply Z.ltb_lt in Hi. lia.
Qed.

(** The model of the loop realises a run, whenever the fuel covers the
    remaining budget. *)
Lemma reply_loop_run :
  forall fuel fetched tok payload st,
    (Z.to_nat (max_replies_per_thread - fetched) <= fuel)%nat ->
    exists calls out w',
      reply_loop upstream fuel parent_id api_key max_replies_per_thread
        fetched tok payload st
      = (out, mkIO w' (trace st ++ calls))
      /\ loop_run fetched tok payload (world st) calls out w'.
Proof.
  induction fuel as [|fuel IH]; intros fetched tok payload st Hfuel.
  - exists [], (Ok payload), (world st).
    assert (Hge : max_replies_per_thread <= fetched) by lia.
    cbn [reply_loop].
    destruct (fetched <? max_replies_per_thread) eqn:E;
      [apply Z.ltb_lt in E; lia|].
    rewrite app_nil_r. destruct st; split; [reflexivity|].
    constructor; exact Hge.
  - rewrite reply_loop_unfold.
    destruct (fetched <? max_replies_per_thread) eqn:E.
    + apply Z.ltb_lt in E. cbn zeta.
      destruct (upstream _ (world st)) as [r w'] eqn:Eu.
      destruct (read_reply r) as [[[[new n] tok'] ritems]|e|] eqn:Er.
      * destruct (breaks tok' ritems) eqn:Eb.
        -- eexists [_], _, w'. split; [reflexivity|].
           eapply run_break; eassumption.
        -- destruct (breaks_false_progress _ _ _ _ _ Er Eb) as [_ Hn].
           destruct (IH (fetched + n) tok' (payload ++ new)
                        (mkIO w' (trace st ++
                           [(batch_request parent_id api_key
                               max_replies_per_thread fetched tok, r)])))
             as (calls & out & w'' & Hrun & Hloop); [lia|].
           cbn [trace world] in Hrun, Hloop.
           rewrite <- app_assoc in Hrun. cbn [app] in Hrun.
           eexists (_ :: calls), out, w''. split; [exact Hrun|].
           eapply run_again; eassumption.
      * eexists [_], _, w'. split; [reflexivity|].
        eapply run_raise; eassumption.
      * exfalso. destruct r as [rdata|e]; [|discriminate Er].
        exact (read_batch_not_out_of_fuel _ Er).
    + apply Z.ltb_ge in E.
      exists [], (Ok payload), (world st).
      rewrite app_nil_r. destruct st; split; [reflexivity|].
      constructor; exact E.
Qed.

Lemma loop_run_outcome :
  forall fetched tok payload w calls out w',
    loop_run fetched tok payload w calls out w' -> out <> OutOfFuel.
Proof. induction 1; try discriminate; assumption. Qed.

End LoopRuns.

(** ** What the log of calls says about a run *)

(** The replies a logged answer contributed, and its continuation token. *)
Definition batch_replies (r : reply) : list comment :=
  match read_reply r with
  | Ok (new, _, _, _) => new
  | _ => []
  end.

Definition batch_len (r : reply) : Z := Z.of_nat (List.length (batch_replies r)).

Definition batch_token (r : reply) : json :=
  match read_reply r with
  | Ok (_, _, tok, _) => tok
  | _ => JNull
  end.

(** The replies fetched by a sequence of calls, in the order of the calls. *)
Definition fetched_replies (calls : list (request * reply)) : list comment :=
  flat_map (fun c => batch_replies (snd c)) calls.

(** The three stop conditions of the specification, after the batch [r] was
    received with [fetched] replies accumulated before it. *)
Definition stop_after (max_replies_per_thread fetched : Z) (r : reply) : bool :=
  (max_replies_per_thread <=? fetched + batch_len r)
  || negb (py_truthy (batch_token r))
  || (batch_len r =? 0).

(** The answers [rs] are those of a loop that stops exactly at the first
    batch after which a stop condition holds (and makes no call at all when
    the budget is already reached). *)
Fixpoint exact_stop (max_replies_per_thread fetched : Z) (rs : list reply) : bool :=
  match rs with
  | [] => max_replies_per_thread <=? fetched
  | r :: rest =>
      (fetched <? max_replies_per_thread)
      && (if stop_after max_replies_per_thread fetched r
          then match rest with [] => true | _ :: _ => false end
          else exact_stop max_replies_per_thread (fetched + batch_len r) rest)
  end.

(** Every call asks for [min(100, max - fetched)] replies of the parent,
    where [fetched] counts the replies of the earlier batches, and passes the
    token of the batch before it. *)
Fixpoint requests_follow_budget (parent_id : json) (api_key : string)
    (max_replies_per_thread fetched : Z) (tok : json)
    (calls : list (request * reply)) : Prop :=
  match calls with
  | [] => True
  | (req, r) :: rest =>
      req = batch_request parent_id api_key max_replies_per_thread fetched tok
      /\ 1 <= Z.min 100 (max_replies_per_thread - fetched) <= 100
      /\ requests_follow_budget parent_id api_key max_replies_per_thread
           (fetched + batch_len r) (batch_token r) rest
  end.

(** The reply listing never answers with more items than were asked for. *)
Definition honours_size {World : Type}
    (upstream : request -> World -> reply * World) : Prop :=
  forall parent_id limit api_key tok w,
    batch_len (fst (upstream (Comments parent_id limit api_key tok) w))
    <= Z.max 0 limit.

Section LoopFacts.

Variable World : Type.
Variable upstream : request -> World -> reply * World.
Variable parent_id : json.
Variable api_key : string.
Variable max_replies_per_thread : Z.

Let run := loop_run World upstream parent_id api_key max_replies_per_thread.

Lemma read_reply_observed :
  forall r new n tok ritems,
    read_reply r = Ok (new, n, tok, ritems) ->
    batch_replies r = new /\ batch_len r = n /\ batch_token r = tok
    /\ py_truthy ritems = (0 <? n).
Proof.
  intros r new n tok ritems H.
  unfold batch_len, batch_replies, batch_token. rewrite H.
  destruct r as [rdata|e]; [|discriminate H]. cbn in H.
  apply read_batch_length in H as [Hn Hl].
  repeat split; try assumption. apply py_len_truthy; exact Hl.
Qed.

Lemma loop_run_calls :
  forall fetched tok payload w calls out w',
    run fetched tok payload w calls out w' ->
    Forall (fun c => is_comments_call c = true) calls.
Proof.
  induction 1; repeat constructor; assumption.
Qed.

Lemma loop_run_payload :
  forall fetched tok payload w calls out w',
    run fetched tok payload w calls out w' ->
    forall p, out = Ok p -> p = payload ++ fetched_replies calls.
Proof.
  induction 1 as [ | | ? ? ? ? ? ? ? ? ? ? _ _ Hr _
                   | ? ? ? ? ? ? ? ? ? ? ? ? ? _ _ Hr _ _ IH ];
    intros p Hp; unfold fetched_replies; cbn [flat_map snd].
  - injection Hp as <-. rewrite app_nil_r. reflexivity.
  - discriminate Hp.
  - injection Hp as <-.
    destruct (read_reply_observed _ _ _ _ _ Hr) as (-> & _).
    rewrite app_nil_r. reflexivity.
  - rewrite (IH p Hp).
    destruct (read_reply_observed _ _ _ _ _ Hr) as (-> & _).
    rewrite <- app_assoc. reflexivity.
Qed.

Lemma loop_run_exact_stop :
  forall fetched tok payload w calls out w',
    run fetched tok payload w calls out w' ->
    forall p, out = Ok p ->
    exact_stop max_replies_per_thread fetched (map snd calls) = true.
Proof.
  induction 1 as [ ? ? ? ? Hge | | ? ? ? ? ? ? ? ? ? ? Hlt _ Hr Hb
                   | ? ? ? ? ? ? ? ? ? ? ? ? ? Hlt _ Hr Hb Hsub IH ];
    intros p Hp; cbn [map snd exact_stop].
  - apply Z.leb_le; exact Hge.
  - discriminate Hp.
  - destruct (read_reply_observed _ _ _ _ _ Hr) as (_ & Hn & Ht & Hi).
    apply Z.ltb_lt in Hlt. rewrite Hlt. cbn [andb].
    assert (Hs : stop_after max_replies_per_thread fetched r = true).
    { unfold stop_after. rewrite Hn, Ht.
      unfold breaks in Hb. apply orb_true_iff in Hb as [Hb|Hb].
      - rewrite Hb. apply orb_true_iff; left. apply orb_true_r.
      - rewrite Hi in Hb. apply negb_true_iff, Z.ltb_ge in Hb.
        destruct (read_reply r) as [[[[? ?] ?] ?]| |] eqn:E; try discriminate Hr.
        assert (Hn0 : 0 <= n) by (rewrite <- Hn; unfold batch_len; lia).
        replace n with 0 by lia. cbn. apply orb_true_r. }
    rewrite Hs. reflexivity.
  - destruct (read_reply_observed _ _ _ _ _ Hr) as (_ & Hn & Ht & Hi).
    destruct (breaks_false_progress _ _ _ _ _ Hr Hb) as [Htok Hn1].
    pose proof (IH p Hp) as IHp.
    apply Z.ltb_lt in Hlt. rewrite Hlt. cbn [andb].
    unfold stop_after. rewrite Hn, Ht, Htok. cbn [negb orb].
    rewrite orb_false_r.
    replace (n =? 0) with false by (symmetry; apply Z.eqb_neq; lia).
    rewrite orb_false_r.
    destruct (max_replies_per_thread <=? fetched + n) eqn:E; [|exact IHp].
    apply Z.leb_le in E.
    destruct calls as [|c calls]; [reflexivity|].
    cbn [map exact_stop] in IHp.
    apply andb_true_iff in IHp as [IHp _]. apply Z.ltb_lt in IHp. lia.
Qed.

Lemma loop_run_no_token_stops :
  forall fetched tok payload w calls out w',
    run fetched tok payload w calls out w' ->
    forall c rest, calls = c :: rest ->
    py_truthy (batch_token (snd c)) = false -> rest = [].
Proof.
  intros fetched tok payload w calls out w' H.
  destruct H as [ | | | ? ? ? ? ? ? ? ? ? ? ? ? ? _ _ Hr Hb _ ];
    intros c rest Hc Htok; try (injection Hc as _ <-; reflexivity);
    try discriminate Hc.
  injection Hc as <- <-. cbn [snd] in Htok.
  destruct (read_reply_observed _ _ _ _ _ Hr) as (_ & _ & Ht & _).
  destruct (breaks_false_progress _ _ _ _ _ Hr Hb) as [Htok' _].
  rewrite Ht in Htok. congruence.
Qed.

Lemma loop_run_requests :
  forall fetched tok payload w calls out w',
    run fetched tok payload w calls out w' ->
    requests_follow_budget parent_id api_key max_replies_per_thread
      fetched tok calls.
Proof.
  induction 1 as [ | | | ? ? ? ? ? ? ? ? ? ? ? ? ? Hlt _ Hr _ _ IH ];
    cbn [requests_follow_budget]; try exact I;
    try (split; [reflexivity|split; [lia|exact I]]).
  destruct (read_reply_observed _ _ _ _ _ Hr) as (_ & Hn & Ht & _).
  rewrite Hn, Ht. split; [reflexivity|]. split; [lia|exact IH].
Qed.

(** With a service that honours the requested size, the loop never
    accumulates more than the budget. *)
Lemma loop_run_within_budget :
  honours_size upstream ->
  forall fetched tok payload w calls out w',
    run fetched tok payload w calls out w' ->
    fetched <= Z.max fetched max_replies_per_thread ->
    fetched + Z.of_nat (List.length (fetched_replies calls))
    <= Z.max fetched max_replies_per_thread.
Proof.
  intros Hh fetched tok payload w calls out w' H.
  induction H as [ | ? ? ? ? r ? ? Hlt Hu _ | ? ? ? ? r ? ? ? ? ? Hlt Hu _ _
                   | ? ? ? ? r ? ? ? ? ? ? ? ? Hlt Hu Hr _ _ IH ];
    intros _; unfold fetched_replies; cbn [flat_map snd].
  - cbn. lia.
  - rewrite app_nil_r.     pose proof (Hh parent_id (Z.min 100 (max_replies_per_thread - fetched))
                  api_key (if py_truthy tok then Some tok else None) w) as Hb.
    fold (batch_request parent_id api_key max_replies_per_thread fetched tok)
      in Hb. rewrite Hu in Hb.
    cbn [fst] in Hb.
    unfold batch_len in Hb. lia.
  - rewrite app_nil_r.     pose proof (Hh parent_id (Z.min 100 (max_replies_per_thread - fetched))
                  api_key (if py_truthy tok then Some tok else None) w) as Hb.
    fold (batch_request parent_id api_key max_replies_per_thread fetched tok)
      in Hb. rewrite Hu in Hb.
    cbn [fst] in Hb.
    unfold batch_len in Hb. lia.
  -     pose proof (Hh parent_id (Z.min 100 (max_replies_per_thread - fetched))
                  api_key (if py_truthy tok then Some tok else None) w) as Hb.
    fold (batch_request parent_id api_key max_replies_per_thread fetched tok)
      in Hb. rewrite Hu in Hb.
    cbn [fst] in Hb.
    destruct (read_reply_observed _ _ _ _ _ Hr) as (_ & Hn & _).
    rewrite Hn in Hb.
    rewrite length_app. fold (fetched_replies calls).
    unfold batch_len in Hn.
    assert (IH' := IH ltac:(lia)). lia.
Qed.

End LoopFacts.

(** ** One thread *)

(** The part of the loop body before the reply loop: thread id, top-level
    comment, reported reply count and inline replies. *)
Definition thread_head (item : json)
  : outcome (json * comment * json * list comment) :=
  let* snippet := py_get item "snippet" (JObj []) in
  let* tlc := py_get snippet "topLevelComment" (JObj []) in
  let* top := py_get tlc "snippet" (JObj []) in
  let* thread_id := py_get item "id" JNull in
  let* reply_count := py_get snippet "totalReplyCount" (JInt 0) in
  let* top_comment := top_comment_of snippet top in
  let* inline := inline_replies item in
  Ok (thread_id, top_comment, reply_count, inline).

(** The test of line 124. *)
Definition enters_loop (include_replies : bool) (reply_count : json)
    (inline : list comment) : outcome bool :=
  if include_replies && py_truthy reply_count
  then py_int_lt (Z.of_nat (List.length inline)) reply_count
  else Ok false.

Definition finish_thread (thread_id : json) (top_comment : comment)
    (reply_count : json) (o : outcome (list comment)) : outcome thread :=
  let* p := o in Ok (mkThread thread_id top_comment reply_count p).

(** Pure computations never run out of fuel. *)
Definition fuel_free {A} (c : outcome A) : Prop := c <> OutOfFuel.

Lemma fuel_free_bind :
  forall A B (c : outcome A) (k : A -> outcome B),
    fuel_free c -> (forall a, fuel_free (k a)) -> fuel_free (bindO c k).
Proof.
  intros A B c k Hc Hk. destruct c; cbn; [apply Hk|discriminate|].
  exfalso; apply Hc; reflexivity.
Qed.

Lemma fuel_free_py_get : forall j k d, fuel_free (py_get j k d).
Proof. intros [] k d; discriminate. Qed.

Lemma fuel_free_py_iter : forall j, fuel_free (py_iter j).
Proof. intros []; discriminate. Qed.

Lemma fuel_free_py_int_lt : forall n j, fuel_free (py_int_lt n j).
Proof. intros n []; discriminate. Qed.

Lemma fuel_free_ok : forall A (a : A), fuel_free (Ok a).
Proof. discriminate. Qed.

Lemma fuel_free_mapO :
  forall A B (f : A -> outcome B) l,
    (forall a, fuel_free (f a)) -> fuel_free (mapO f l).
Proof.
  intros A B f l Hf. induction l as [|x l IH]; cbn; [discriminate|].
  apply fuel_free_bind; [apply Hf|]. intros y.
  apply fuel_free_bind; [exact IH|]. intros ys. discriminate.
Qed.

Create HintDb fuel.
#[local] Hint Resolve fuel_free_py_get fuel_free_py_iter fuel_free_py_int_lt
  fuel_free_ok : fuel.

Ltac fuel_free_tac :=
  repeat first
    [ apply fuel_free_bind; [ | intro ]
    | apply fuel_free_mapO; intro
    | solve [ auto with fuel ] ].

Lemma fuel_free_reply_comment : forall r, fuel_free (reply_comment r).
Proof. intro r. unfold reply_comment. fuel_free_tac. Qed.

Lemma fuel_free_top_comment_of : forall s t, fuel_free (top_comment_of s t).
Proof. intros s t. unfold top_comment_of. fuel_free_tac. Qed.

Lemma fuel_free_inline_replies : forall item, fuel_free (inline_replies item).
Proof.
  intro item. unfold inline_replies. fuel_free_tac.
Qed.

Lemma fuel_free_thread_head : forall item, fuel_free (thread_head item).
Proof.
  intro item. unfold thread_head. fuel_free_tac.
Qed.

Lemma fuel_free_enters_loop : forall i rc l, fuel_free (enters_loop i rc l).
Proof.
  intros i rc l. unfold enters_loop.
  destruct (i && py_truthy rc); auto with fuel.
Qed.

Lemma thread_head_inline :
  forall item tid top rc inline,
    thread_head item = Ok (tid, top, rc, inline) ->
    inline_replies item = Ok inline.
Proof.
  intros item tid top rc inline H. unfold thread_head in H.
  repeat match type of H with
         | bindO ?c _ = _ => destruct c; cbn [bindO] in H; try discriminate H
         end.
  injection H as _ _ _ <-. reflexivity.
Qed.

Section ThreadRuns.

Variable World : Type.
Variable upstream : request -> World -> reply * World.
Variable api_key : string.
Variable include_replies : bool.
Variable max_replies_per_thread : Z.

(** [process_thread] is the head, the test, and then the loop or nothing. *)
Lemma process_thread_unfold :
  forall item st,
    process_thread upstream api_key include_replies max_replies_per_thread
      item st
    = match thread_head item with
      | Ok (tid, top, rc, inline) =>
          match enters_loop include_replies rc inline with
          | Ok true =>
              let (o, st') :=
                reply_loop upstream (Z.to_nat max_replies_per_thread)
                  (comment_id top) api_key max_replies_per_thread 0 JNull
                  inline st in
              (finish_thread tid top rc o, st')
          | Ok false => (Ok (mkThread tid top rc inline), st)
          | Raise e => (Raise e, st)
          | OutOfFuel => (OutOfFuel, st)
          end
      | Raise e => (Raise e, st)
      | OutOfFuel => (OutOfFuel, st)
      end.
Proof.
  intros item st. unfold process_thread, thread_head, bind, lift.
  destruct (py_get item "snippet" (JObj [])) as [snippet| |]; cbn [bindO];
    try reflexivity.
  destruct (py_get snippet "topLevelComment" (JObj [])) as [tlc| |];
    cbn [bindO]; try reflexivity.
  destruct (py_get tlc "snippet" (JObj [])) as [top| |]; cbn [bindO];
    try reflexivity.
  destruct (py_get item "id" JNull) as [tid| |]; cbn [bindO]; try reflexivity.
  destruct (py_get snippet "totalReplyCount" (JInt 0)) as [rc| |];
    cbn [bindO]; try reflexivity.
  destruct (top_comment_of snippet top) as [tc| |]; cbn [bindO];
    try reflexivity.
  destruct (inline_replies item) as [inline| |]; cbn [bindO]; try reflexivity.
  unfold enters_loop.
  destruct (include_replies && py_truthy rc); [|reflexivity].
  destruct (py_int_lt (Z.of_nat (List.length inline)) rc) as [[|]| |];
    try reflexivity.
  destruct (reply_loop upstream _ _ _ _ _ _ _ st) as [[p|e|] st'];
    reflexivity.
Qed.

(** Every run of [process_thread]: the calls it makes are those of a run of
    the reply loop started with nothing fetched, no token and the inline
    replies; without the loop it makes none. *)
Lemma process_thread_run :
  forall item st,
  exists calls out w',
    process_thread upstream api_key include_replies max_replies_per_thread
      item st
    = (out, mkIO w' (trace st ++ calls))
    /\ out <> OutOfFuel
    /\ Forall (fun c => is_comments_call c = true) calls
    /\ forall thr, out = Ok thr ->
       exists inline,
         thread_head item
         = Ok (threadId thr, topLevelComment thr, replyCount thr, inline)
         /\ ((enters_loop include_replies (replyCount thr) inline = Ok true
              /\ loop_run World upstream (comment_id (topLevelComment thr))
                   api_key max_replies_per_thread 0 JNull inline (world st)
                   calls (Ok (replies thr)) w')
             \/ (enters_loop include_replies (replyCount thr) inline = Ok false
                 /\ calls = [] /\ w' = world st /\ replies thr = inline)).
Proof.
  intros item st. rewrite process_thread_unfold.
  assert (Hst : forall (o : outcome thread),
             (o, st) = (o, mkIO (world st) (trace st ++ []))).
  { intro o. rewrite app_nil_r. destruct st; reflexivity. }
  destruct (thread_head item) as [[[[tid top] rc] inline]|e|] eqn:Eh.
  - destruct (enters_loop include_replies rc inline) as [[|]|e|] eqn:Ee.
    + destruct (reply_loop_run World upstream (comment_id top) api_key
                  max_replies_per_thread (Z.to_nat max_replies_per_thread)
                  0 JNull inline st) as (calls & o & w' & Hrun & Hloop).
      { rewrite Z.sub_0_r. apply Nat.le_refl. }
      rewrite Hrun. exists calls, (finish_thread tid top rc o), w'.
      split; [reflexivity|]. split.
      { pose proof (loop_run_outcome _ _ _ _ _ _ _ _ _ _ _ _ Hloop) as Ho.
        destruct o; cbn; [discriminate|discriminate|congruence]. }
      split; [eapply loop_run_calls; exact Hloop|].
      intros thr Hthr. destruct o as [p| |]; cbn in Hthr; try discriminate Hthr.
      injection Hthr as <-. cbn. exists inline. split; [reflexivity|].
      left. split; assumption.
    + exists [], (Ok (mkThread tid top rc inline)), (world st).
      split; [apply Hst|]. split; [discriminate|]. split; [constructor|].
      intros thr Hthr. injection Hthr as <-. cbn. exists inline.
      split; [reflexivity|]. right. repeat split; assumption.
    + exists [], (Raise e), (world st).
      split; [apply Hst|]. split; [discriminate|]. split; [constructor|].
      intros thr Hthr; discriminate Hthr.
    + exfalso. exact (fuel_free_enters_loop _ _ _ Ee).
  - exists [], (Raise e), (world st).
    split; [apply Hst|]. split; [discriminate|]. split; [constructor|].
    intros thr Hthr; discriminate Hthr.
  - exfalso. exact (fuel_free_thread_head _ Eh).
Qed.

Lemma process_thread_fuel_free :
  forall item st,
    fst (process_thread upstream api_key include_replies
           max_replies_per_thread item st) <> OutOfFuel.
Proof.
  intros item st.
  destruct (process_thread_run item st) as (calls & out & w' & -> & Ho & _).
  exact Ho.
Qed.

End ThreadRuns.

(** The whole call never runs out of fuel: the fuel [process_thread] gives
    the loop always covers the budget. *)
Lemma mapM_fuel_free :
  forall (World A B : Type) (f : A -> M World B),
    (forall x st, fst (f x st) <> OutOfFuel) ->
    forall l st, fst (mapM f l st) <> OutOfFuel.
Proof.
  intros World A B f Hf l; induction l as [|x l IH]; intro st; cbn.
  - discriminate.
  - unfold bind. pose proof (Hf x st) as Hx.
    destruct (f x st) as [[y|e|] st1]; cbn in *;
      [|discriminate|congruence].
    pose proof (IH st1) as Hl.
    destruct (mapM f l st1) as [[ys|e|] st2]; cbn in *;
      [discriminate|discriminate|congruence].
Qed.

Lemma fetch_comment_threads_fuel_free :
  forall (World : Type) (upstream : request -> World -> reply * World)
         video_id api_key max_results page_token order include_replies
         max_replies_per_thread st,
    fst (fetch_comment_threads upstream video_id api_key max_results
           page_token order include_replies max_replies_per_thread st)
    <> OutOfFuel.
Proof.
  intros World upstream vid key maxr ptok order inc max st.
  unfold fetch_comment_threads, bind, _http_get, lift.
  destruct (upstream _ (world st)) as [[data|e] w']; cbn; [|discriminate].
  pose proof (fuel_free_py_get data "items" (JList [])) as H1.
  destruct (py_get data "items" (JList [])) as [items| |];
    [|discriminate|cbn; congruence].
  pose proof (fuel_free_py_get data "nextPageToken" JNull) as H2.
  destruct (py_get data "nextPageToken" JNull) as [tok| |];
    [|discriminate|cbn; congruence].
  pose proof (fuel_free_py_iter items) as H3.
  destruct (py_iter items) as [its| |]; [|discriminate|cbn; congruence].
  match goal with
  | |- context [mapM ?f its ?s] =>
      pose proof (mapM_fuel_free World _ _ f
                    (process_thread_fuel_free World upstream key inc max)
                    its s) as H4;
      destruct (mapM f its s) as [[ths| |] st2]; cbn in *;
        [discriminate|discriminate|congruence]
  end.
Qed.

(** ** A concrete service, for the runs below

    One video with one thread [thread-1] whose top-level comment [top-1] has
    50 replies [reply-0 .. reply-49].  The thread listing embeds the first
    five replies inline and reports 50.  The reply listing serves the replies
    from the first one on, as many as asked for; the state of the service is
    the number of replies it has served so far. *)
Module Demo.

Definition reply_json (i : nat) : json :=
  JObj [("id", JStr (String (ascii_of_nat (48 + i / 10))
                       (String (ascii_of_nat (48 + i mod 10)) "")));
        ("snippet", JObj [("textDisplay", JStr "a reply");
                          ("authorDisplayName", JStr "someone");
                          ("parentId", JStr "top-1")])].

Definition thread_json : json :=
  JObj [("id", JStr "thread-1");
        ("snippet",
         JObj [("topLevelComment",
                JObj [("id", JStr "top-1");
                      ("snippet", JObj [("textDisplay", JStr "a comment");
                                        ("likeCount", JInt 7)])]);
               ("totalReplyCount", JInt 50)]);
        ("replies", JObj [("comments", JList (map reply_json (seq 0 5)))])].

Definition service (req : request) (served : nat) : reply * nat :=
  match req with
  | CommentThreads _ _ _ _ _ =>
      (Resp (JObj [("items", JList [thread_json]);
                   ("nextPageToken", JStr "page-2")]), served)
  | Comments _ limit _ _ =>
      let n := Nat.min (Z.to_nat limit) (50 - served) in
      (Resp (JObj [("items", JList (map reply_json (seq served n)));
                   ("nextPageToken",
                    if (served + n <? 50)%nat then JStr "more" else JNull)]),
       (served + n)%nat)
  end.

(** A service whose reply listing returns three replies and no token. *)
Definition short_service (req : request) (w : unit) : reply * unit :=
  match req with
  | CommentThreads _ _ _ _ _ =>
      (Resp (JObj [("items", JList [thread_json])]), w)
  | Comments _ _ _ _ =>
      (Resp (JObj [("items", JList (map reply_json (seq 0 3)))]), w)
  end.

Definition start : io_state nat := mkIO 0%nat [].
Definition short_start : io_state unit := mkIO tt [].

Definition the_replies (o : outcome comment_page) : list (list comment) :=
  match o with
  | Ok page => map replies (threads page)
  | _ => []
  end.

End Demo.

(** ** The reply loop: termination, order of the replies, budget *)

(** A service whose reply listing returns at most three replies per answer,
    with a continuation token while replies are left. *)
Module Chunked.

Definition service (req : request) (served : nat) : reply * nat :=
  match req with
  | CommentThreads _ _ _ _ _ =>
      (Resp (JObj [("items", JList [Demo.thread_json])]), served)
  | Comments _ limit _ _ =>
      let n := Nat.min (Nat.min 3 (Z.to_nat limit)) (50 - served) in
      (Resp (JObj [("items", JList (map Demo.reply_json (seq served n)));
                   ("nextPageToken",
                    if (served + n <? 50)%nat then JStr "more" else JNull)]),
       (served + n)%nat)
  end.

End Chunked.

(** The log and the outcome of a loop that starts with [fetched] replies
    counted, the token [tok] and the replies [payload]: it calls only while
    [fetched] is below the budget, with the request of [batch_request]; an
    answer that fails or cannot be read is the last and its exception is the
    outcome; an answer that is read either is the last, exactly when
    [stop_after] holds, and the loop returns, or the loop goes on with the
    batch counted and appended. *)
Fixpoint loop_shape (parent_id : json) (api_key : string)
    (max_replies_per_thread fetched : Z) (tok : json) (payload : list comment)
    (calls : list (request * reply)) (out : outcome (list comment)) : Prop :=
  match calls with
  | [] => max_replies_per_thread <= fetched /\ out = Ok payload
  | (req, r) :: rest =>
      fetched < max_replies_per_thread
      /\ req = batch_request parent_id api_key max_replies_per_thread
                 fetched tok
      /\ match read_reply r with
         | Ok (new, n, tok', _) =>
             if stop_after max_replies_per_thread fetched r
             then rest = [] /\ out = Ok (payload ++ new)
             else loop_shape parent_id api_key max_replies_per_thread
                    (fetched + n) tok' (payload ++ new) rest out
         | Raise e => rest = [] /\ out = Raise e
         | OutOfFuel => False
         end
  end.

Section LoopShape.

Variable World : Type.
Variable upstream : request -> World -> reply * World.
Variable parent_id : json.
Variable api_key : string.
Variable max_replies_per_thread : Z.

Let run := loop_run World upstream parent_id api_key max_replies_per_thread.

Lemma breaks_stop_after :
  forall fetched r new n tok ritems,
    read_reply r = Ok (new, n, tok, ritems) ->
    stop_after max_replies_per_thread fetched r
    = (max_replies_per_thread <=? fetched + n) || breaks tok ritems.
Proof.
  intros fetched r new n tok ritems Hr.
  destruct (read_reply_observed _ _ _ _ _ Hr) as (_ & Hn & Ht & Hi).
  unfold stop_after, breaks. rewrite Hn, Ht, Hi.
  assert (H0 : 0 <= n) by (rewrite <- Hn; unfold batch_len; lia).
  rewrite <- orb_assoc. f_equal. f_equal.
  destruct (0 <? n) eqn:E; cbn [negb].
  - apply Z.ltb_lt in E. apply Z.eqb_neq. lia.
  - apply Z.ltb_ge in E. apply Z.eqb_eq. lia.
Qed.

Lemma loop_run_shape :
  forall fetched tok payload w calls out w',
    run fetched tok payload w calls out w' ->
    loop_shape parent_id api_key max_replies_per_thread fetched tok payload
      calls out.
Proof.
  induction 1 as [ ? ? ? ? Hge | ? ? ? ? ? ? ? Hlt _ Hr
                   | ? ? ? ? ? ? ? ? ? ? Hlt _ Hr Hb
                   | ? ? ? ? ? ? ? ? ? ? ? ? ? Hlt _ Hr Hb Hsub IH ];
    cbn [loop_shape].
  - split; [exact Hge|reflexivity].
  - split; [exact Hlt|]. split; [reflexivity|]. rewrite Hr.
    split; reflexivity.
  - split; [exact Hlt|]. split; [reflexivity|].
    rewrite (breaks_stop_after _ _ _ _ _ _ Hr), Hr, Hb, orb_true_r.
    split; reflexivity.
  - split; [exact Hlt|]. split; [reflexivity|].
    rewrite (breaks_stop_after _ _ _ _ _ _ Hr), Hr, Hb, orb_false_r.
    destruct (max_replies_per_thread <=? fetched + n) eqn:E; [|exact IH].
    apply Z.leb_le in E.
    inversion Hsub; subst; try lia. split; reflexivity.
Qed.

Lemma loop_run_first_answer :
  forall fetched tok payload w calls out w',
    run fetched tok payload w calls out w' ->
    forall c rest, calls = c :: rest -> snd c = fst (upstream (fst c) w).
Proof.
  intros fetched tok payload w calls out w' H.
  destruct H as [ | ? ? ? ? ? ? ? _ Hu _ | ? ? ? ? ? ? ? ? ? ? _ Hu _ _
                  | ? ? ? ? ? ? ? ? ? ? ? ? ? _ Hu _ _ _ ];
    intros c rest Hc; try discriminate Hc;
    injection Hc as <- _; cbn [fst snd]; rewrite Hu; reflexivity.
Qed.

End LoopShape.

(** C4, as stated, fails: the thread of the demonstration service embeds 5
    replies; with a budget of 5 the accumulated reply count has reached the
    budget before any call, yet the loop asks for a batch of 5 and the
    thread ends with 10 replies.  Counted with the inline replies, the log
    does not stop where the claim says. *)
Lemma reply_loop_counts_inline_counterexample :
  (exists tid top rc inline,
      thread_head Demo.thread_json = Ok (tid, top, rc, inline)
      /\ List.length inline = 5%nat)
  /\ exists thr st',
       process_thread Demo.service "key" true 5 Demo.thread_json Demo.start
       = (Ok thr, st')
       /\ map fst (trace st') = [Comments (JStr "top-1") 5 "key" None]
       /\ List.length (replies thr) = 10%nat
       /\ exact_stop 5 5 (map snd (trace st')) = false.
Proof.
  split; [do 4 eexists; split; vm_compute; reflexivity|].
  do 2 eexists. split; [vm_compute; reflexivity|].
  repeat split; vm_compute; reflexivity.
Qed.

(** C4, amended: for every service the reply loop of a thread terminates.
    The count compared with [max_replies_per_thread] is the number of replies
    fetched by the loop itself, from 0 for each thread: inline replies are
    not counted.  The loop calls only while that count is below the budget;
    after a batch that is read it stops exactly when the count has reached
    the budget, or the answer carries no continuation token, or the batch is
    empty, and then returns the inline replies followed by the batches; a
    call that fails or an answer that cannot be read is the last call and
    its exception is the outcome.  In particular a batch without
    continuation token is the last one. *)
Theorem reply_loop_stops_exactly :
  forall (World : Type) (upstream : request -> World -> reply * World)
         (api_key : string) (max_replies_per_thread : Z) (item : json)
         (st : io_state World)
         (tid : json) (top : comment) (rc : json) (inline : list comment),
    thread_head item = Ok (tid, top, rc, inline) ->
    enters_loop true rc inline = Ok true ->
    exists calls out st',
      process_thread upstream api_key true max_replies_per_thread item st
      = (finish_thread tid top rc out, st')
      /\ trace st' = trace st ++ calls
      /\ out <> OutOfFuel
      /\ loop_shape (comment_id top) api_key max_replies_per_thread 0 JNull
           inline calls out
      /\ (forall c rest, calls = c :: rest ->
          snd c = fst (upstream (fst c) (world st)))
      /\ (forall c rest, calls = c :: rest ->
          py_truthy (batch_token (snd c)) = false -> rest = []).
Proof.
  intros World upstream key max item st tid top rc inline Hh He.
  rewrite process_thread_unfold, Hh, He.
  destruct (reply_loop_run World upstream (comment_id top) key max
              (Z.to_nat max) 0 JNull inline st)
    as (calls & out & w' & Hrun & Hloop).
  { rewrite Z.sub_0_r. apply Nat.le_refl. }
  rewrite Hrun. exists calls, out, (mkIO w' (trace st ++ calls)).
  split; [reflexivity|]. split; [reflexivity|].
  split; [eapply loop_run_outcome; exact Hloop|].
  split; [eapply loop_run_shape; exact Hloop|].
  split; [eapply loop_run_first_answer; exact Hloop|].
  eapply loop_run_no_token_stops; exact Hloop.
Qed.

Definition requested_sizes (calls : list (request * reply)) : list Z :=
  map (fun c => match fst c with
                | Comments _ n _ _ => n
                | CommentThreads _ n _ _ _ => n
                end) calls.

Lemma reply_loop_stops_exactly_witness :
  (exists thr st',
      process_thread Chunked.service "key" true 7 Demo.thread_json Demo.start
      = (Ok thr, st')
      /\ requested_sizes (trace st') = [7; 4; 1]
      /\ List.length (replies thr) = 12%nat)
  /\ exists calls out st',
       process_thread Chunked.service "key" true 7 Demo.thread_json Demo.start
       = (finish_thread (JStr "thread-1")
            (mkComment (JStr "top-1") (JStr "a comment") JNull JNull JNull
               JNull (JInt 7) false JNull)
            (JInt 50) out, st')
       /\ trace st' = trace Demo.start ++ calls
       /\ out <> OutOfFuel
       /\ loop_shape (JStr "top-1") "key" 7 0 JNull
            (match inline_replies Demo.thread_json with
             | Ok l => l
             | _ => []
             end)
            calls out
       /\ (forall c rest, calls = c :: rest ->
           snd c = fst (Chunked.service (fst c) (world Demo.start)))
       /\ (forall c rest, calls = c :: rest ->
           py_truthy (batch_token (snd c)) = false -> rest = []).
Proof.
  split.
  - do 2 eexists. split; [vm_compute; reflexivity|].
    split; vm_compute; reflexivity.
  - apply (reply_loop_stops_exactly nat Chunked.service "key" 7
             Demo.thread_json Demo.start
             (JStr "thread-1")
             (mkComment (JStr "top-1") (JStr "a comment") JNull JNull JNull
                JNull (JInt 7) false JNull)
             (JInt 50)
             (match inline_replies Demo.thread_json with
              | Ok l => l
              | _ => []
              end)).
    + vm_compute. reflexivity.
    + vm_compute. reflexivity.
Defined.

(** C3: with [include_replies] on, the replies of a processed thread are the
    inline replies followed by the replies of every reply-listing answer, in
    the order of the calls; nothing is removed, whether or not a fetched
    reply repeats an inline one. *)
Theorem fetched_replies_appended :
  forall (World : Type) (upstream : request -> World -> reply * World)
         (api_key : string) (max_replies_per_thread : Z) (item : json)
         (st st' : io_state World) (thr : thread),
    process_thread upstream api_key true max_replies_per_thread item st
    = (Ok thr, st') ->
    exists inline calls,
      inline_replies item = Ok inline
      /\ trace st' = trace st ++ calls
      /\ Forall (fun c => is_comments_call c = true) calls
      /\ replies thr = inline ++ fetched_replies calls.
Proof.
  intros World upstream api_key max item st st' thr H.
  destruct (process_thread_run World upstream api_key true max item st)
    as (calls & out & w' & Hrun & _ & Hcalls & Hok).
  rewrite Hrun in H. injection H as -> <-.
  destruct (Hok thr eq_refl) as (inline & Hhead & Hcase).
  exists inline, calls.
  split; [eapply thread_head_inline; exact Hhead|].
  split; [reflexivity|]. split; [exact Hcalls|].
  destruct Hcase as [[_ Hloop] | (_ & -> & _ & ->)].
  - eapply loop_run_payload; [exact Hloop|reflexivity].
  - cbn. rewrite app_nil_r. reflexivity.
Qed.

Lemma fetched_replies_appended_witness :
  exists thr st',
    process_thread Demo.short_service "key" true 20 Demo.thread_json
      Demo.short_start = (Ok thr, st')
    /\ map comment_id (replies thr)
       = [JStr "00"; JStr "01"; JStr "02"; JStr "03"; JStr "04";
          JStr "00"; JStr "01"; JStr "02"]
    /\ exists inline calls,
         inline_replies Demo.thread_json = Ok inline
         /\ trace st' = trace Demo.short_start ++ calls
         /\ Forall (fun c => is_comments_call c = true) calls
         /\ replies thr = inline ++ fetched_replies calls.
Proof.
  eexists. eexists. split; [vm_compute; reflexivity|].
  split; [vm_compute; reflexivity|].
  apply (fetched_replies_appended unit Demo.short_service "key" 20
           Demo.thread_json Demo.short_start).
  vm_compute. reflexivity.
Defined.

(** The demonstration service honours the requested size. *)
Lemma demo_replies_read :
  forall l, exists cs,
    mapO reply_comment (map Demo.reply_json l) = Ok cs
    /\ List.length cs = List.length l.
Proof.
  induction l as [|i l (cs & Hcs & Hlen)].
  - exists []. split; reflexivity.
  - eexists (_ :: cs). cbn [map mapO].
    rewrite Hcs. cbn. split; [reflexivity|]. cbn. rewrite Hlen. reflexivity.
Qed.

Lemma demo_service_honours_size : honours_size Demo.service.
Proof.
  intros parent_id limit api_key tok served. cbn [Demo.service fst].
  set (n := Nat.min (Z.to_nat limit) (50 - served)).
  unfold batch_len, batch_replies, read_reply, read_batch.
  cbn [py_get dict_get String.eqb Ascii.eqb Bool.eqb bindO py_iter].
  destruct (demo_replies_read (seq served n)) as (cs & Hcs & Hlen).
  rewrite Hcs. cbn. rewrite Hlen, length_seq. subst n. lia.
Qed.

(** C1, as stated, fails: the thread of the demonstration service reports 50
    replies and embeds 5; with [include_replies] on and
    [max_replies_per_thread = 20] the loop asks for a batch of
    [min(100, 20 - 0) = 20], not [min(100, 20 - 5) = 15], and the thread ends
    with 25 replies. *)
Lemma replies_exceed_budget_counterexample :
  (exists tid top inline,
     thread_head Demo.thread_json = Ok (tid, top, JInt 50, inline)
     /\ List.length inline = 5%nat)
  /\ map (@List.length comment)
       (Demo.the_replies
          (fst (fetch_comment_threads Demo.service "vid" "key" 20 None
                  "relevance" true 20 Demo.start)))
     = [25%nat]
  /\ map fst
       (trace (snd (fetch_comment_threads Demo.service "vid" "key" 20 None
                      "relevance" true 20 Demo.start)))
     = [CommentThreads "vid" 20 "relevance" "key" None;
        Comments (JStr "top-1") 20 "key" None]
  /\ ~ Forall (fun l => Z.of_nat (List.length l) <= 20)
         (Demo.the_replies
            (fst (fetch_comment_threads Demo.service "vid" "key" 20 None
                    "relevance" true 20 Demo.start))).
Proof.
  split; [do 3 eexists; split; vm_compute; reflexivity|].
  split; [vm_compute; reflexivity|].
  split; [vm_compute; reflexivity|].
  intro H.
  assert (Hl : Forall (fun n => Z.of_nat n <= 20)
                 (map (@List.length comment)
                    (Demo.the_replies
                       (fst (fetch_comment_threads Demo.service "vid" "key"
                               20 None "relevance" true 20 Demo.start))))).
  { apply Forall_map. exact H. }
  vm_compute in Hl. inversion Hl as [|? ? Hbad _]. apply Hbad. reflexivity.
Qed.

(** C1, amended: the budget bounds the replies fetched by the loop, and the
    inline replies are not counted against it.  For every thread processed
    with [include_replies] on, every reply-listing batch is requested with
    size [min(100, max_replies_per_thread - fetched)], between 1 and 100,
    where [fetched] counts the replies of the earlier batches only; and when
    the service never returns more than the requested size, the fetched
    replies number at most [max(0, max_replies_per_thread)], so that the
    replies sequence has at most that many elements more than the inline
    replies. *)
Theorem replies_within_fetch_budget :
  forall (World : Type) (upstream : request -> World -> reply * World)
         (api_key : string) (max_replies_per_thread : Z) (item : json)
         (st st' : io_state World) (thr : thread),
    process_thread upstream api_key true max_replies_per_thread item st
    = (Ok thr, st') ->
    exists inline calls,
      inline_replies item = Ok inline
      /\ trace st' = trace st ++ calls
      /\ replies thr = inline ++ fetched_replies calls
      /\ requests_follow_budget (comment_id (topLevelComment thr)) api_key
           max_replies_per_thread 0 JNull calls
      /\ (honours_size upstream ->
          Z.of_nat (List.length (fetched_replies calls))
          <= Z.max 0 max_replies_per_thread
          /\ Z.of_nat (List.length (replies thr))
             <= Z.of_nat (List.length inline) + Z.max 0 max_replies_per_thread).
Proof.
  intros World upstream api_key max item st st' thr H.
  destruct (process_thread_run World upstream api_key true max item st)
    as (calls & out & w' & Hrun & _ & _ & Hok).
  rewrite Hrun in H. injection H as -> <-.
  destruct (Hok thr eq_refl) as (inline & Hhead & Hcase).
  exists inline, calls.
  split; [eapply thread_head_inline; exact Hhead|].
  split; [reflexivity|].
  destruct Hcase as [[_ Hloop] | (_ & -> & _ & Hrep)].
  - pose proof (loop_run_payload _ _ _ _ _ _ _ _ _ _ _ _ Hloop _ eq_refl)
      as Hp.
    split; [exact Hp|].
    split; [eapply loop_run_requests; exact Hloop|].
    intro Hh.
    pose proof (loop_run_within_budget _ _ _ _ _ Hh _ _ _ _ _ _ _ Hloop
                  ltac:(lia)) as Hb.
    rewrite Hp, length_app. lia.
  - split; [rewrite Hrep; cbn; rewrite app_nil_r; reflexivity|].
    split; [exact I|].
    intros _. rewrite Hrep. cbn. lia.
Qed.

Lemma replies_within_fetch_budget_witness :
  exists thr st',
    process_thread Demo.service "key" true 20 Demo.thread_json Demo.start
    = (Ok thr, st')
    /\ exists inline calls,
         inline_replies Demo.thread_json = Ok inline
         /\ trace st' = trace Demo.start ++ calls
         /\ replies thr = inline ++ fetched_replies calls
         /\ requests_follow_budget (comment_id (topLevelComment thr)) "key"
              20 0 JNull calls
         /\ (honours_size Demo.service ->
             Z.of_nat (List.length (fetched_replies calls)) <= Z.max 0 20
             /\ Z.of_nat (List.length (replies thr))
                <= Z.of_nat (List.length inline) + Z.max 0 20).
Proof.
  eexists. eexists. split; [vm_compute; reflexivity|].
  apply (replies_within_fetch_budget nat Demo.service "key" 20
           Demo.thread_json Demo.start).
  vm_compute. reflexivity.
Defined.

(** ** Calls without the reply loop *)

(** The items of a thread-listing answer, as [for item in items] visits them. *)
Definition response_items (r : reply) : outcome (list json) :=
  match r with
  | Resp data =>
      let* items := py_get data "items" (JList []) in
      py_iter items
  | Fail e => Raise e
  end.

(** A thread processed without the reply loop. *)
Definition quiet_thread (include_replies : bool) (item : json) : outcome thread :=
  match thread_head item with
  | Ok (tid, top, rc, inline) =>
      let* _ := enters_loop include_replies rc inline in
      Ok (mkThread tid top rc inline)
  | Raise e => Raise e
  | OutOfFuel => OutOfFuel
  end.

Lemma mapO_Forall2 :
  forall (A B : Type) (f : A -> outcome B) l l',
    mapO f l = Ok l' -> Forall2 (fun x y => f x = Ok y) l l'.
Proof.
  intros A B f l; induction l as [|x l IH]; intros l' H; cbn in H.
  - injection H as <-. constructor.
  - destruct (f x) as [y| |] eqn:Ex; cbn in H; try discriminate H.
    destruct (mapO f l) as [ys| |]; cbn in H; try discriminate H.
    injection H as <-. constructor; [exact Ex|apply IH; reflexivity].
Qed.

Lemma quiet_thread_inline :
  forall include_replies item thr,
    quiet_thread include_replies item = Ok thr ->
    inline_replies item = Ok (replies thr).
Proof.
  intros inc item thr H. unfold quiet_thread in H.
  destruct (thread_head item) as [[[[tid top] rc] inline]| |] eqn:Eh;
    try discriminate H.
  destruct (enters_loop inc rc inline); cbn in H; try discriminate H.
  injection H as <-. cbn. eapply thread_head_inline; exact Eh.
Qed.

Section QuietRuns.

Variable World : Type.
Variable upstream : request -> World -> reply * World.

Lemma mapM_pure :
  forall (A B : Type) (f : A -> M World B) (g : A -> outcome B),
    (forall x st, f x st = (g x, st)) ->
    forall l st, mapM f l st = (mapO g l, st).
Proof.
  intros A B f g Hfg l; induction l as [|x l IH]; intro st; cbn.
  - reflexivity.
  - unfold bind. rewrite Hfg.
    destruct (g x) as [y| |]; cbn; try reflexivity.
    rewrite IH. destruct (mapO g l); reflexivity.
Qed.

(** With [include_replies] off, or a budget that is not positive, a thread
    is processed without any call. *)
Lemma process_thread_quiet :
  forall api_key include_replies max_replies_per_thread,
    include_replies = false \/ max_replies_per_thread <= 0 ->
    forall item st,
      process_thread upstream api_key include_replies max_replies_per_thread
        item st
      = (quiet_thread include_replies item, st).
Proof.
  intros api_key inc max Hq item st.
  rewrite process_thread_unfold. unfold quiet_thread.
  destruct (thread_head item) as [[[[tid top] rc] inline]| |]; try reflexivity.
  destruct (enters_loop inc rc inline) as [[|]| |] eqn:Ee; try reflexivity.
  destruct Hq as [-> | Hmax].
  - discriminate Ee.
  - replace (Z.to_nat max) with 0%nat by lia. cbn [reply_loop].
    destruct (0 <? max) eqn:E; [apply Z.ltb_lt in E; lia|]. reflexivity.
Qed.

Definition thread_list_request (video_id api_key : string) (max_results : Z)
    (page_token : option string) (order : string) : request :=
  CommentThreads video_id max_results order api_key
    (match page_token with
     | Some t => if String.eqb t "" then None else Some t
     | None => None
     end).

(** The page built from a thread-listing answer when no thread enters the
    reply loop. *)
Definition quiet_page (video_id : string) (include_replies : bool) (r : reply)
  : outcome comment_page :=
  match r with
  | Resp data =>
      let* items := py_get data "items" (JList []) in
      let* next_page_token := py_get data "nextPageToken" JNull in
      let* its := py_iter items in
      let* normalized_threads := mapO (quiet_thread include_replies) its in
      Ok (mkPage video_id next_page_token normalized_threads)
  | Fail e => Raise e
  end.

Lemma fetch_quiet_eq :
  forall video_id api_key max_results page_token order include_replies
         max_replies_per_thread st,
    include_replies = false \/ max_replies_per_thread <= 0 ->
    fetch_comment_threads upstream video_id api_key max_results page_token
      order include_replies max_replies_per_thread st
    = let req := thread_list_request video_id api_key max_results page_token
                   order in
      (quiet_page video_id include_replies (fst (upstream req (world st))),
       mkIO (snd (upstream req (world st))) (trace st ++
               [(req, fst (upstream req (world st)))])).
Proof.
  intros vid key maxr ptok order inc max st Hq. cbn zeta.
  unfold fetch_comment_threads, thread_list_request, bind, _http_get.
  destruct (upstream _ (world st)) as [r w']. cbn [fst snd].
  destruct r as [data|e]; [|reflexivity].
  unfold lift, quiet_page.
  destruct (py_get data "items" (JList [])) as [items| |]; cbn [bindO];
    try reflexivity.
  destruct (py_get data "nextPageToken" JNull) as [tok| |]; cbn [bindO];
    try reflexivity.
  destruct (py_iter items) as [its| |]; cbn [bindO]; try reflexivity.
  rewrite (mapM_pure _ _ _ (quiet_thread inc)
             (process_thread_quiet key inc max Hq)).
  destruct (mapO (quiet_thread inc) its); reflexivity.
Qed.

Lemma fuel_free_quiet_thread :
  forall include_replies item, fuel_free (quiet_thread include_replies item).
Proof.
  intros inc item. unfold quiet_thread.
  pose proof (fuel_free_thread_head item) as Hh.
  destruct (thread_head item) as [[[[tid top] rc] inline]| |];
    [|discriminate|exfalso; apply Hh; reflexivity].
  apply fuel_free_bind; [apply fuel_free_enters_loop|]. intros; discriminate.
Qed.

Lemma fuel_free_quiet_page :
  forall video_id include_replies r,
    fuel_free (quiet_page video_id include_replies r).
Proof.
  intros vid inc [data|e]; [|discriminate]. unfold quiet_page.
  apply fuel_free_bind; [apply fuel_free_py_get|intro items].
  apply fuel_free_bind; [apply fuel_free_py_get|intro tok].
  apply fuel_free_bind; [apply fuel_free_py_iter|intro its].
  apply fuel_free_bind; [|intros; discriminate].
  apply fuel_free_mapO. apply fuel_free_quiet_thread.
Qed.

Lemma quiet_page_threads :
  forall video_id include_replies r page,
    quiet_page video_id include_replies r = Ok page ->
    exists items,
      response_items r = Ok items
      /\ Forall2 (fun item thr => inline_replies item = Ok (replies thr))
           items (threads page).
Proof.
  intros vid inc [data|e] page H; [|discriminate H].
  unfold quiet_page in H. unfold response_items.
  destruct (py_get data "items" (JList [])) as [items| |]; cbn [bindO] in *;
    try discriminate H.
  destruct (py_get data "nextPageToken" JNull) as [tok| |]; cbn [bindO] in H;
    try discriminate H.
  destruct (py_iter items) as [its| |]; cbn [bindO] in H; try discriminate H.
  destruct (mapO (quiet_thread inc) its) as [ths| |] eqn:E; cbn [bindO] in H;
    try discriminate H.
  injection H as <-. cbn [threads]. exists its. split; [reflexivity|].
  apply mapO_Forall2 in E. eapply Forall2_impl; [|exact E].
  intros item thr Ht. eapply quiet_thread_inline; exact Ht.
Qed.

End QuietRuns.

(** C10: [max_replies_per_thread] is not clamped; with [include_replies] on
    and [max_replies_per_thread <= 0] the body of the reply loop never runs:
    the thread listing is the only call made, and each thread carries exactly
    the inline replies of its item, even when the item reports more replies
    than it embeds. *)
Theorem fetch_nonpositive_budget_is_inline :
  forall (World : Type) (upstream : request -> World -> reply * World)
         (video_id api_key : string) (max_results : Z)
         (page_token : option string) (order : string)
         (max_replies_per_thread : Z) (st : io_state World),
    max_replies_per_thread <= 0 ->
    let req := thread_list_request video_id api_key max_results page_token
                 order in
    let answer := fst (upstream req (world st)) in
    let run := fetch_comment_threads upstream video_id api_key max_results
                 page_token order true max_replies_per_thread st in
    trace (snd run) = trace st ++ [(req, answer)]
    /\ is_comments_call (req, answer) = false
    /\ fst run <> OutOfFuel
    /\ forall page,
         fst run = Ok page ->
         exists items,
           response_items answer = Ok items
           /\ Forall2 (fun item thr => inline_replies item = Ok (replies thr))
                items (threads page).
Proof.
  intros World upstream vid key maxr ptok order max st Hmax. cbn zeta.
  rewrite (fetch_quiet_eq World upstream vid key maxr ptok order true max st
             (or_intror Hmax)).
  cbn [fst snd trace]. split; [reflexivity|]. split; [reflexivity|].
  split; [apply fuel_free_quiet_page|].
  intros page Hp. eapply quiet_page_threads; exact Hp.
Qed.

Lemma fetch_nonpositive_budget_is_inline_witness :
  map (@List.length comment)
    (Demo.the_replies
       (fst (fetch_comment_threads Demo.service "vid" "key" 20 None
               "relevance" true (-5) Demo.start)))
  = [5%nat]
  /\ trace (snd (fetch_comment_threads Demo.service "vid" "key" 20 None
                   "relevance" true (-5) Demo.start))
     = trace Demo.start
       ++ [(thread_list_request "vid" "key" 20 None "relevance",
            fst (Demo.service
                   (thread_list_request "vid" "key" 20 None "relevance")
                   (world Demo.start)))].
Proof.
  split; [vm_compute; reflexivity|].
  apply (fetch_nonpositive_budget_is_inline nat Demo.service "vid" "key" 20
           None "relevance" (-5) Demo.start).
  vm_compute. intro H; discriminate H.
Defined.

(** The handler passes a negative budget through: the page has the five
    inline replies and only the thread listing was called. *)
Example do_GET_negative_budget :
  match do_GET Ref.urlparse Ref.parse_qs Ref.py_int Demo.service (Some "k")
          "/api/comments?videoId=abc&includeReplies=1&maxRepliesPerThread=-5"
          Demo.start with
  | (Ok (mkResponse 200 (PageBody page)), st') =>
      map (@List.length comment) (map replies (threads page)) = [5%nat]
      /\ map fst (trace st') = [CommentThreads "abc" 20 "relevance" "k" None]
  | _ => False
  end.
Proof. vm_compute. split; reflexivity. Qed.

(** ** Missing optional fields *)

Definition get_or (k : string) (o : dict) (d : json) : json :=
  match dict_get k o with
  | Some v => v
  | None => d
  end.

(** [(x.get("authorChannelId") or {}).get("value")] on a dict [rs]. *)
Definition channel_value (rs : dict) : outcome json :=
  py_get (py_or (get_or "authorChannelId" rs JNull) (JObj [])) "value" JNull.

Lemma reply_comment_fields :
  forall ro rs,
    py_get (JObj ro) "snippet" (JObj []) = Ok (JObj rs) ->
    reply_comment (JObj ro)
    = let* acv := channel_value rs in
      Ok (mkComment (get_or "id" ro JNull) (get_or "textDisplay" rs JNull)
            (get_or "authorDisplayName" rs JNull) acv
            (get_or "publishedAt" rs JNull) (get_or "updatedAt" rs JNull)
            (get_or "likeCount" rs (JInt 0)) true (get_or "parentId" rs JNull)).
Proof.
  intros ro rs H. unfold reply_comment. rewrite H.
  cbn [bindO py_get]. fold (get_or "authorChannelId" rs JNull).
  unfold channel_value.
  destruct (py_get (py_or (get_or "authorChannelId" rs JNull) (JObj []))
              "value" JNull); reflexivity.
Qed.

Lemma top_comment_fields :
  forall s tl t,
    py_get (JObj s) "topLevelComment" (JObj []) = Ok (JObj tl) ->
    top_comment_of (JObj s) (JObj t)
    = let* acv := channel_value t in
      Ok (mkComment (get_or "id" tl JNull) (get_or "textDisplay" t JNull)
            (get_or "authorDisplayName" t JNull) acv
            (get_or "publishedAt" t JNull) (get_or "updatedAt" t JNull)
            (get_or "likeCount" t (JInt 0)) false JNull).
Proof.
  intros s tl t H. unfold top_comment_of. rewrite H.
  cbn [bindO py_get]. fold (get_or "authorChannelId" t JNull).
  unfold channel_value.
  destruct (py_get (py_or (get_or "authorChannelId" t JNull) (JObj []))
              "value" JNull); reflexivity.
Qed.

(** The channel id is absent when the field is missing, and reading it fails
    only on a field that is present, truthy and not a dict. *)
Lemma channel_value_missing :
  forall rs, dict_get "authorChannelId" rs = None -> channel_value rs = Ok JNull.
Proof.
  intros rs H. unfold channel_value, get_or. rewrite H. reflexivity.
Qed.

Lemma channel_value_failure :
  forall rs, (forall v, channel_value rs <> Ok v) ->
    exists ac, dict_get "authorChannelId" rs = Some ac
               /\ py_truthy ac = true /\ forall o, ac <> JObj o.
Proof.
  intros rs H. unfold channel_value, get_or in H.
  destruct (dict_get "authorChannelId" rs) as [ac|] eqn:E.
  - exists ac. split; [reflexivity|].
    unfold py_or in H. destruct (py_truthy ac) eqn:Et.
    + split; [reflexivity|]. intros o ->. cbn in H. eapply H; reflexivity.
    + exfalso. cbn in H. eapply H; reflexivity.
  - exfalso. cbn in H. eapply H; reflexivity.
Qed.

(** The fields of a comment that the specification names, on a snippet [rs]:
    a missing [likeCount] reads 0; a missing [authorChannelId], or one
    without a [value], reads absent and cannot fail; and a failure needs an
    [authorChannelId] that is present, truthy and not a dict. *)
Definition tolerant (build : outcome comment) (rs : dict) : Prop :=
  (dict_get "likeCount" rs = None ->
   forall c, build = Ok c -> likeCount c = JInt 0)
  /\ (dict_get "authorChannelId" rs = None ->
      exists c, build = Ok c /\ authorChannelId c = JNull)
  /\ (forall ac, dict_get "authorChannelId" rs = Some (JObj ac) ->
       dict_get "value" ac = None ->
       exists c, build = Ok c /\ authorChannelId c = JNull)
  /\ ((forall c, build <> Ok c) ->
      exists ac, dict_get "authorChannelId" rs = Some ac
                 /\ py_truthy ac = true /\ forall o, ac <> JObj o).

Lemma tolerant_build :
  forall (rs : dict) (f : json -> comment),
    (forall acv, likeCount (f acv) = get_or "likeCount" rs (JInt 0)) ->
    (forall acv, authorChannelId (f acv) = acv) ->
    tolerant (let* acv := channel_value rs in Ok (f acv)) rs.
Proof.
  intros rs f Hl Ha. repeat split.
  - intros Hmiss c Hc.
    destruct (channel_value rs) as [acv| |]; cbn in Hc; try discriminate Hc.
    injection Hc as <-. rewrite Hl. unfold get_or. rewrite Hmiss. reflexivity.
  - intros Hmiss. rewrite (channel_value_missing rs Hmiss). cbn.
    eexists; split; [reflexivity|apply Ha].
  - intros ac Hac Hval. unfold channel_value, get_or. rewrite Hac.
    unfold py_or. destruct ac as [|kv ac]; cbn [py_truthy py_get bindO].
    + cbn. eexists; split; [reflexivity|apply Ha].
    + rewrite Hval. cbn. eexists; split; [reflexivity|apply Ha].
  - intros Hfail. apply channel_value_failure. intros v Hv.
    rewrite Hv in Hfail. cbn in Hfail. eapply Hfail; reflexivity.
Qed.

(** C9: missing optional fields are defaulted and never make the aggregator
    fail.  For a reply and for a top-level comment whose snippet is a dict
    (or is itself missing), a missing [likeCount] gives 0, a missing
    [authorChannelId] gives an absent channel id and a successful build, and
    a build can only fail on a channel id that is present with the wrong
    type.  For a thread whose snippet lacks [totalReplyCount], the reply
    count is 0 and the thread is processed exactly as with [include_replies]
    off: no reply-listing call, no test that could fail. *)
Theorem missing_optional_fields_default :
  (forall ro rs,
      py_get (JObj ro) "snippet" (JObj []) = Ok (JObj rs) ->
      tolerant (reply_comment (JObj ro)) rs)
  /\ (forall s tl t,
        py_get (JObj s) "topLevelComment" (JObj []) = Ok (JObj tl) ->
        tolerant (top_comment_of (JObj s) (JObj t)) t)
  /\ (forall (World : Type) (upstream : request -> World -> reply * World)
             api_key include_replies max_replies_per_thread o s st,
        py_get (JObj o) "snippet" (JObj []) = Ok (JObj s) ->
        dict_get "totalReplyCount" s = None ->
        process_thread upstream api_key include_replies
          max_replies_per_thread (JObj o) st
        = (quiet_thread false (JObj o), st)
        /\ forall thr, quiet_thread false (JObj o) = Ok thr ->
                       replyCount thr = JInt 0).
Proof.
  split; [|split].
  - intros ro rs H. rewrite (reply_comment_fields ro rs H).
    apply (tolerant_build rs
             (fun acv => mkComment (get_or "id" ro JNull) _ _ acv _ _ _ true _));
      reflexivity.
  - intros s tl t H. rewrite (top_comment_fields s tl t H).
    apply (tolerant_build t
             (fun acv => mkComment (get_or "id" tl JNull) _ _ acv _ _ _ false _));
      reflexivity.
  - intros World upstream key inc max o s st Hs Hmiss.
    assert (Hrc : forall tid top rc inline,
               thread_head (JObj o) = Ok (tid, top, rc, inline) -> rc = JInt 0).
    { intros tid top rc inline Hh. unfold thread_head in Hh. rewrite Hs in Hh.
      cbn [bindO] in Hh.
      repeat match type of Hh with
             | bindO ?c _ = _ =>
                 let E := fresh "E" in
                 destruct c eqn:E; cbn [bindO] in Hh; try discriminate Hh
             end.
      injection Hh as _ _ <- _.
      match goal with
      | E : py_get (JObj s) "totalReplyCount" _ = Ok _ |- _ =>
          cbn in E; rewrite Hmiss in E; injection E as <-
      end.
      reflexivity. }
    split.
    + rewrite process_thread_unfold. unfold quiet_thread.
      destruct (thread_head (JObj o)) as [[[[tid top] rc] inline]| |] eqn:Eh;
        try reflexivity.
      rewrite (Hrc _ _ _ _ eq_refl).
      unfold enters_loop. cbn [py_truthy Z.eqb negb].
      rewrite andb_false_r. reflexivity.
    + intros thr Hthr. unfold quiet_thread in Hthr.
      destruct (thread_head (JObj o)) as [[[[tid top] rc] inline]| |] eqn:Eh;
        try discriminate Hthr.
      cbn in Hthr. injection Hthr as <-. cbn. eapply Hrc; reflexivity.
Qed.

(** ** The inline replies, read off the raw answer *)

(** The raw replies an item embeds: the list at [replies.comments], nothing
    when either field is missing or is not of that shape. *)
Definition embedded_comments (item : json) : list json :=
  match item with
  | JObj o =>
      match dict_get "replies" o with
      | Some (JObj ro) =>
          match dict_get "comments" ro with
          | Some (JList cs) => cs
          | _ => []
          end
      | _ => []
      end
  | _ => []
  end.

(** The channel id of a raw snippet: the [value] of its [authorChannelId]
    object, absent otherwise. *)
Definition embedded_channel (rs : dict) : json :=
  match dict_get "authorChannelId" rs with
  | Some (JObj acd) => get_or "value" acd JNull
  | _ => JNull
  end.

(** The normalised reply of a raw comment object [ro] with snippet [rs]. *)
Definition embedded_reply (ro rs : dict) : comment :=
  mkComment (get_or "id" ro JNull) (get_or "textDisplay" rs JNull)
    (get_or "authorDisplayName" rs JNull) (embedded_channel rs)
    (get_or "publishedAt" rs JNull) (get_or "updatedAt" rs JNull)
    (get_or "likeCount" rs (JInt 0)) true (get_or "parentId" rs JNull).

(** [c] is the reply read off the raw comment [raw]. *)
Definition is_embedded_reply (raw : json) (c : comment) : Prop :=
  exists ro rs,
    raw = JObj ro
    /\ get_or "snippet" ro (JObj []) = JObj rs
    /\ c = embedded_reply ro rs.

Lemma channel_value_embedded :
  forall rs acv, channel_value rs = Ok acv -> acv = embedded_channel rs.
Proof.
  intros rs acv H. unfold channel_value, get_or, embedded_channel in *.
  destruct (dict_get "authorChannelId" rs) as [ac|].
  - unfold py_or in H. destruct (py_truthy ac) eqn:Et.
    + destruct ac; cbn in H; try discriminate H.
      injection H as <-. reflexivity.
    + cbn in H. injection H as <-.
      destruct ac as [| | | | |acd]; try reflexivity.
      destruct acd; [reflexivity|discriminate Et].
  - cbn in H. injection H as <-. reflexivity.
Qed.

Lemma reply_comment_embedded :
  forall raw c, reply_comment raw = Ok c -> is_embedded_reply raw c.
Proof.
  intros raw c H.
  destruct raw as [| | | | |ro]; try discriminate H.
  destruct (get_or "snippet" ro (JObj [])) as [| | | | |rs] eqn:Es;
    try (unfold reply_comment in H; cbn [py_get bindO] in H;
         fold (get_or "snippet" ro (JObj [])) in H; rewrite Es in H;
         discriminate H).
  assert (Hs : py_get (JObj ro) "snippet" (JObj []) = Ok (JObj rs)).
  { cbn. fold (get_or "snippet" ro (JObj [])). rewrite Es. reflexivity. }
  rewrite (reply_comment_fields ro rs Hs) in H.
  destruct (channel_value rs) as [acv| |] eqn:Ec; cbn [bindO] in H;
    try discriminate H.
  injection H as <-. exists ro, rs. split; [reflexivity|].
  split; [exact Es|]. unfold embedded_reply.
  rewrite (channel_value_embedded rs acv Ec). reflexivity.
Qed.

Lemma mapO_reply_comment_strings :
  forall (l : list string) cs,
    l <> [] -> mapO reply_comment (map JStr l) <> Ok cs.
Proof.
  intros [|k l] cs Hl H; [congruence|]. cbn in H. discriminate H.
Qed.

(** What the code collects as inline replies is the replies read off the raw
    list the item embeds, one for one and in order. *)
Lemma inline_replies_embedded :
  forall item inline,
    inline_replies item = Ok inline ->
    Forall2 is_embedded_reply (embedded_comments item) inline.
Proof.
  intros item inline H. unfold inline_replies in H.
  destruct item as [| | | | |o]; try discriminate H.
  cbn [py_get bindO embedded_comments] in *.
  assert (Hempty : forall cs : json,
             py_truthy cs = false ->
             (let* rs := py_iter (py_or cs (JList [])) in mapO reply_comment rs)
             = Ok inline -> inline = []).
  { intros cs Hf Hc. unfold py_or in Hc. rewrite Hf in Hc. cbn in Hc.
    injection Hc as <-. reflexivity. }
  assert (Hlist : forall cs : json,
             (let* rs := py_iter (py_or cs (JList [])) in mapO reply_comment rs)
             = Ok inline ->
             Forall2 is_embedded_reply
               (match cs with JList l => l | _ => [] end) inline).
  { intros cs Hc. destruct (py_truthy cs) eqn:Et.
    - unfold py_or in Hc. rewrite Et in Hc.
      destruct cs as [|b|z|str|l|d]; cbn [py_iter bindO] in Hc;
        try discriminate Hc.
      + exfalso.
        destruct str as [|a str]; [discriminate Et|]. cbn in Hc.
        discriminate Hc.
      + apply mapO_Forall2 in Hc.
        eapply Forall2_impl; [|exact Hc]. exact reply_comment_embedded.
      + exfalso. eapply (mapO_reply_comment_strings (dict_keys d));
          [|exact Hc].
        destruct d as [|kv d]; [discriminate Et|].
        apply nodup_nonempty. discriminate.
    - rewrite (Hempty cs Et Hc).
      destruct cs as [| | | |l|]; try constructor.
      destruct l; [constructor|discriminate Et]. }
  destruct (dict_get "replies" o) as [rep|] eqn:Er.
  - unfold py_or at 1 in H. destruct (py_truthy rep) eqn:Et.
    + destruct rep as [| | | | |ro]; cbn [py_get bindO] in H;
        try discriminate H.
      specialize (Hlist _ H).
      destruct (dict_get "comments" ro) as [cs|]; [exact Hlist|].
      exact Hlist.
    + cbn [py_get dict_get bindO] in H.
      rewrite (Hempty JNull eq_refl H).
      destruct rep as [| | | | |ro]; try constructor.
      destruct ro; [constructor|discriminate Et].
  - cbn [py_or py_truthy py_get dict_get bindO] in H.
    rewrite (Hempty JNull eq_refl H). constructor.
Qed.

(** C5: with [include_replies] off, [fetch_comment_threads] makes exactly one
    call, the thread listing, and no reply-listing call; and each thread of
    the page carries exactly the inline replies embedded in its item of the
    thread-listing answer (one normalised reply per raw comment of the
    item's [replies.comments], in order, and none when the item embeds
    none), whatever reply count the item reports. *)
Theorem fetch_without_replies_is_inline :
  forall (World : Type) (upstream : request -> World -> reply * World)
         (video_id api_key : string) (max_results : Z)
         (page_token : option string) (order : string)
         (max_replies_per_thread : Z) (st : io_state World),
    let req := thread_list_request video_id api_key max_results page_token
                 order in
    let answer := fst (upstream req (world st)) in
    let run := fetch_comment_threads upstream video_id api_key max_results
                 page_token order false max_replies_per_thread st in
    trace (snd run) = trace st ++ [(req, answer)]
    /\ is_comments_call (req, answer) = false
    /\ fst run <> OutOfFuel
    /\ forall page,
         fst run = Ok page ->
         exists items,
           response_items answer = Ok items
           /\ Forall2 (fun item thr =>
                         Forall2 is_embedded_reply (embedded_comments item)
                           (replies thr)
                         /\ inline_replies item = Ok (replies thr))
                items (threads page).
Proof.
  intros World upstream vid key maxr ptok order max st. cbn zeta.
  rewrite (fetch_quiet_eq World upstream vid key maxr ptok order false max st
             (or_introl eq_refl)).
  cbn [fst snd trace]. split; [reflexivity|]. split; [reflexivity|].
  split; [apply fuel_free_quiet_page|].
  intros page Hp.
  destruct (quiet_page_threads _ _ _ _ Hp) as (items & Hi & Hf).
  exists items. split; [exact Hi|].
  eapply Forall2_impl; [|exact Hf].
  intros item thr Hin. split; [|exact Hin].
  apply inline_replies_embedded. exact Hin.
Qed.

Lemma fetch_without_replies_is_inline_witness :
  map (map comment_id)
    (Demo.the_replies
       (fst (fetch_comment_threads Demo.service "vid" "key" 20 None
               "relevance" false 20 Demo.start)))
  = [[JStr "00"; JStr "01"; JStr "02"; JStr "03"; JStr "04"]]
  /\ map embedded_comments [Demo.thread_json]
     = [map Demo.reply_json (seq 0 5)]
  /\ trace (snd (fetch_comment_threads Demo.service "vid" "key" 20 None
                   "relevance" false 20 Demo.start))
     = trace Demo.start
       ++ [(thread_list_request "vid" "key" 20 None "relevance",
            fst (Demo.service
                   (thread_list_request "vid" "key" 20 None "relevance")
                   (world Demo.start)))].
Proof.
  split; [vm_compute; reflexivity|]. split; [vm_compute; reflexivity|].
  apply (fetch_without_replies_is_inline nat Demo.service "vid" "key" 20 None
           "relevance" 20 Demo.start).
Defined.

(** A service whose thread listing returns two items with every optional
    field missing: the page is built, with the defaults. *)
Example bare_items_are_tolerated :
  fst (fetch_comment_threads
         (fun (_ : request) (w : unit) =>
            (Resp (JObj [("items",
                          JList [JObj [];
                                 JObj [("replies",
                                        JObj [("comments", JList [JObj []])])]])]),
             w))
         "vid" "key" 20 None "relevance" true 20 Demo.short_start)
  = Ok (mkPage "vid" JNull
          [mkThread JNull
             (mkComment JNull JNull JNull JNull JNull JNull (JInt 0) false JNull)
             (JInt 0) [];
           mkThread JNull
             (mkComment JNull JNull JNull JNull JNull JNull (JInt 0) false JNull)
             (JInt 0)
             [mkComment JNull JNull JNull JNull JNull JNull (JInt 0) true JNull]]).
Proof. vm_compute. reflexivity. Qed.

(** ** Request handler *)

Definition missing_identifier_message : string :=
  "Missing 'videoId' or parsable 'url' query param.".

(** C8, as stated, fails: the request [/api/comments?maxResults=abc] supplies
    neither [videoId] nor [url], and the answer is a 500, not a 400: the
    query is parsed, integers included, before the identifier is looked at. *)
Lemma missing_identifier_counterexample :
  (exists parsed qs,
      Ref.urlparse "/api/comments?maxResults=abc" = Some parsed
      /\ Ref.parse_qs (query parsed) = Some qs
      /\ get_one qs "videoId" = "" /\ get_one qs "url" = "")
  /\ do_GET Ref.urlparse Ref.parse_qs Ref.py_int Demo.service (Some "k")
       "/api/comments?maxResults=abc" Demo.start
     = (Ok (mkResponse 500
              (ErrorDetailsBody "Internal server error" ValueError)),
        Demo.start)
  /\ status (mkResponse 500
               (ErrorDetailsBody "Internal server error" ValueError)) <> 400.
Proof.
  split; [do 2 eexists; repeat split; vm_compute; reflexivity|].
  split; [vm_compute; reflexivity|].
  cbn. intro H; discriminate H.
Qed.

Section HandlerFacts.

Variable urlparse : string -> option ParseResult.
Variable parse_qs : string -> option qsdict.
Variable py_int : string -> option Z.
Variable World : Type.
Variable upstream : request -> World -> reply * World.

Lemma resolve_video_id_missing :
  forall q,
    q_videoId q = "" ->
    (q_url q = ""
     \/ extract_video_id_from_url urlparse parse_qs (q_url q) = None
     \/ extract_video_id_from_url urlparse parse_qs (q_url q) = Some "") ->
    resolve_video_id urlparse parse_qs q = "".
Proof.
  intros q Hv Hu. unfold resolve_video_id. rewrite Hv. cbn [String.eqb andb].
  destruct (String.eqb (q_url q) "") eqn:E; cbn [negb]; [reflexivity|].
  destruct Hu as [Hu | [Hu | Hu]].
  - rewrite Hu in E. discriminate E.
  - rewrite Hu. reflexivity.
  - rewrite Hu. reflexivity.
Qed.

Lemma do_GET_no_identifier :
  forall environ path st q,
    _parse_query urlparse parse_qs py_int path = Ok q ->
    resolve_video_id urlparse parse_qs q = "" ->
    do_GET urlparse parse_qs py_int upstream environ path st
    = (Ok (mkResponse 400 (ErrorBody missing_identifier_message)), st).
Proof.
  intros environ path st q Hq Hr.
  unfold do_GET, do_GET_try, bind, lift. rewrite Hq, Hr. reflexivity.
Qed.

Lemma do_GET_unparsable :
  forall environ path st e,
    _parse_query urlparse parse_qs py_int path = Raise e ->
    do_GET urlparse parse_qs py_int upstream environ path st
    = (Ok (mkResponse 500 (ErrorDetailsBody "Internal server error" e)), st).
Proof.
  intros environ path st e Hq.
  unfold do_GET, do_GET_try, bind, lift. rewrite Hq. reflexivity.
Qed.

End HandlerFacts.

(** C8, amended: for every inbound request whose query parses (the integer
    parameters included) and that supplies neither a [videoId] nor a [url]
    from which an identifier can be extracted, the response is HTTP 400 with
    an [error] field and no upstream call is made; when the query does not
    parse the response is HTTP 500 with an [error] field, again without any
    upstream call. *)
Theorem do_GET_missing_identifier :
  forall (urlparse : string -> option ParseResult)
         (parse_qs : string -> option qsdict) (py_int : string -> option Z)
         (World : Type) (upstream : request -> World -> reply * World)
         (environ : option string) (path : string) (st : io_state World),
    (forall q,
        _parse_query urlparse parse_qs py_int path = Ok q ->
        q_videoId q = "" ->
        (q_url q = ""
         \/ extract_video_id_from_url urlparse parse_qs (q_url q) = None
         \/ extract_video_id_from_url urlparse parse_qs (q_url q) = Some "") ->
        exists resp,
          do_GET urlparse parse_qs py_int upstream environ path st
          = (Ok resp, st)
          /\ status resp = 400
          /\ has_error_field (payload resp) = true)
    /\ (forall e,
          _parse_query urlparse parse_qs py_int path = Raise e ->
          exists resp,
            do_GET urlparse parse_qs py_int upstream environ path st
            = (Ok resp, st)
            /\ status resp = 500
            /\ has_error_field (payload resp) = true).
Proof.
  intros urlparse parse_qs py_int World upstream environ path st. split.
  - intros q Hq Hv Hu. eexists. split.
    + eapply do_GET_no_identifier; [exact Hq|].
      apply resolve_video_id_missing; assumption.
    + split; reflexivity.
  - intros e He. eexists. split.
    + eapply do_GET_unparsable; exact He.
    + split; reflexivity.
Qed.

Lemma do_GET_missing_identifier_witness :
  exists resp,
    do_GET Ref.urlparse Ref.parse_qs Ref.py_int Demo.service (Some "k")
      "/api/comments?url=https://example.com/&maxResults=5" Demo.start
    = (Ok resp, Demo.start)
    /\ status resp = 400
    /\ has_error_field (payload resp) = true.
Proof.
  refine (proj1 (do_GET_missing_identifier Ref.urlparse Ref.parse_qs
                   Ref.py_int nat Demo.service (Some "k")
                   "/api/comments?url=https://example.com/&maxResults=5"
                   Demo.start)
            (mkQuery "https://example.com/" "" None None false (Some 5) 20)
            _ _ _).
  - vm_compute. reflexivity.
  - reflexivity.
  - right. left. vm_compute. reflexivity.
Defined.

(** * Further properties of the code *)

(** ** Identifier resolver: the three rules *)

(** [s] has only characters of the class [[A-Za-z0-9_-]]. *)
Fixpoint id_chars (s : string) : bool :=
  match s with
  | EmptyString => true
  | String a s' => is_id_char a && id_chars s'
  end.

(** [r] occurs in [s] as a contiguous run. *)
Definition occurs_in (r s : string) : Prop :=
  exists pre post, s = (pre ++ r ++ post)%string.

Lemma match_id_run_sound :
  forall n s r,
    match_id_run n s = Some r ->
    String.length r = n /\ id_chars r = true
    /\ exists post, s = (r ++ post)%string.
Proof.
  induction n as [|n IH]; intros s r H; cbn in H.
  - injection H as <-. repeat split. exists s. reflexivity.
  - destruct s as [|a s]; [discriminate H|].
    destruct (is_id_char a) eqn:Ea; [|discriminate H].
    destruct (match_id_run n s) as [r'|] eqn:Er; [|discriminate H].
    injection H as <-.
    destruct (IH s r' Er) as (Hl & Hc & post & ->).
    cbn. rewrite Hl, Ea, Hc. repeat split. exists post. reflexivity.
Qed.

Lemma match_id_run_complete :
  forall r post,
    id_chars r = true ->
    match_id_run (String.length r) (r ++ post) = Some r.
Proof.
  induction r as [|a r IH]; intros post H; cbn in *.
  - reflexivity.
  - apply andb_true_iff in H as [Ha Hr]. rewrite Ha, (IH post Hr). reflexivity.
Qed.

Lemma search_id11_sound :
  forall s r,
    search_id11 s = Some r ->
    String.length r = 11%nat /\ id_chars r = true /\ occurs_in r s.
Proof.
  induction s as [|a s IH]; intros r H.
  - cbn in H. discriminate H.
  - cbn [search_id11] in H.
    destruct (match_id_run 11 (String a s)) as [r'|] eqn:Em.
    + injection H as <-.
      destruct (match_id_run_sound _ _ _ Em) as (Hl & Hc & post & Hs).
      repeat split; try assumption. exists EmptyString, post. exact Hs.
    + destruct (IH r H) as (Hl & Hc & pre & post & ->).
      repeat split; try assumption. exists (String a pre), post. reflexivity.
Qed.

Lemma search_id11_complete :
  forall pre r post,
    String.length r = 11%nat -> id_chars r = true ->
    search_id11 (pre ++ r ++ post) <> None.
Proof.
  induction pre as [|a pre IH]; intros r post Hl Hc.
  - cbn [append].
    pose proof (match_id_run_complete r post Hc) as Hm. rewrite Hl in Hm.
    destruct r as [|b r]; [discriminate Hl|].
    cbn [append search_id11] in *. rewrite Hm. discriminate.
  - cbn [append search_id11].
    destruct (match_id_run 11 (String a (pre ++ r ++ post)));
      [discriminate|]. apply IH; assumption.
Qed.

Lemma strip_prefix_sound :
  forall p s rest, strip_prefix p s = Some rest -> s = (p ++ rest)%string.
Proof.
  induction p as [|a p IH]; intros s rest H; cbn in H.
  - injection H as <-. reflexivity.
  - destruct s as [|b s]; [discriminate H|].
    destruct (Ascii.eqb a b) eqn:E; [|discriminate H].
    apply Ascii.eqb_eq in E. subst b. cbn. f_equal. apply IH; exact H.
Qed.

Lemma search_embed_sound :
  forall s r,
    search_embed s = Some r ->
    String.length r = 11%nat /\ id_chars r = true
    /\ occurs_in ("/embed/" ++ r) s.
Proof.
  induction s as [|a s IH]; intros r H.
  - cbn in H. discriminate H.
  - cbn [search_embed] in H.
    destruct (match_embed (String a s)) as [r'|] eqn:Em.
    + injection H as <-. unfold match_embed in Em.
      destruct (strip_prefix "/embed/" (String a s)) as [rest|] eqn:Ep;
        [|discriminate Em].
      apply strip_prefix_sound in Ep.
      destruct (match_id_run_sound _ _ _ Em) as (Hl & Hc & post & ->).
      repeat split; try assumption.
      exists EmptyString, post. rewrite Ep. reflexivity.
    + destruct (IH r H) as (Hl & Hc & pre & post & ->).
      repeat split; try assumption. exists (String a pre), post. reflexivity.
Qed.

Lemma short_host_is_not_long :
  forall host, endswith host "youtube.com" = true -> String.eqb host "youtu.be" = false.
Proof.
  intros host H. destruct (String.eqb host "youtu.be") eqn:E; [|reflexivity].
  apply String.eqb_eq in E. subst host. vm_compute in H. discriminate H.
Qed.

(** X1: on a host that ends with [youtube.com], a [v] query parameter wins:
    its first value is returned, whatever the path and the rest of the URL
    contain. *)
Theorem extract_video_id_v_param :
  forall (urlparse : string -> option ParseResult)
         (parse_qs : string -> option qsdict) (url : string)
         (parsed : ParseResult) (qs : qsdict) (v0 : string) (more : list string),
    urlparse url = Some parsed ->
    endswith (netloc parsed) "youtube.com" = true ->
    parse_qs (query parsed) = Some qs ->
    qs_get "v" qs = Some (v0 :: more) ->
    extract_video_id_from_url urlparse parse_qs url = Some v0.
Proof.
  intros urlparse parse_qs url parsed qs v0 more Hp He Hq Hv.
  unfold extract_video_id_from_url.
  rewrite Hp, (short_host_is_not_long _ He), He, Hq, Hv. reflexivity.
Qed.

Lemma extract_video_id_v_param_witness :
  extract_video_id_from_url Ref.urlparse Ref.parse_qs
    "https://www.youtube.com/embed/AAAAAAAAAAA?v=dQw4w9WgXcQ&v=other"
  = Some "dQw4w9WgXcQ".
Proof.
  apply (extract_video_id_v_param Ref.urlparse Ref.parse_qs
           "https://www.youtube.com/embed/AAAAAAAAAAA?v=dQw4w9WgXcQ&v=other"
           (mkParse "https" "www.youtube.com" "/embed/AAAAAAAAAAA" ""
              "v=dQw4w9WgXcQ&v=other" "")
           [("v", ["dQw4w9WgXcQ"; "other"])] "dQw4w9WgXcQ" ["other"]);
    vm_compute; reflexivity.
Defined.

(** X2: every identifier the resolver returns comes from one of its three
    rules: the stripped, non-empty path of a [youtu.be] link; the first [v]
    value on a host ending with [youtube.com]; or a run of exactly 11
    characters of [[A-Za-z0-9_-]] that stands in the path right after
    [/embed/] (on such a host) or anywhere in the URL. *)
Theorem extract_video_id_sources :
  forall (urlparse : string -> option ParseResult)
         (parse_qs : string -> option qsdict) (url v : string),
    extract_video_id_from_url urlparse parse_qs url = Some v ->
    exists parsed,
      urlparse url = Some parsed
      /\ ((netloc parsed = "youtu.be"
           /\ v = lstrip_slash (path parsed) /\ v <> "")
          \/ (netloc parsed <> "youtu.be"
              /\ endswith (netloc parsed) "youtube.com" = true
              /\ exists qs more,
                   parse_qs (query parsed) = Some qs
                   /\ qs_get "v" qs = Some (v :: more))
          \/ (netloc parsed <> "youtu.be"
              /\ String.length v = 11%nat /\ id_chars v = true
              /\ ((endswith (netloc parsed) "youtube.com" = true
                   /\ occurs_in ("/embed/" ++ v) (path parsed))
                  \/ occurs_in v url))).
Proof.
  intros urlparse parse_qs url v H. unfold extract_video_id_from_url in H.
  destruct (urlparse url) as [parsed|]; [|discriminate H].
  exists parsed. split; [reflexivity|].
  destruct (String.eqb (netloc parsed) "youtu.be") eqn:En.
  - apply String.eqb_eq in En. left. split; [exact En|].
    destruct (String.eqb (lstrip_slash (path parsed)) "") eqn:Ev;
      [discriminate H|].
    injection H as <-. split; [reflexivity|].
    apply String.eqb_neq in Ev. exact Ev.
  - apply String.eqb_neq in En. right.
    assert (Hfb : search_id11 url = Some v ->
                  String.length v = 11%nat /\ id_chars v = true
                  /\ occurs_in v url) by apply search_id11_sound.
    destruct (endswith (netloc parsed) "youtube.com") eqn:Ee.
    + destruct (parse_qs (query parsed)) as [qs|]; [|discriminate H].
      destruct (qs_get "v" qs) as [[|v0 more]|] eqn:Ev.
      * right. split; [exact En|].
        destruct (search_embed (path parsed)) as [m|] eqn:Em.
        -- injection H as <-.
           destruct (search_embed_sound _ _ Em) as (Hl & Hc & Ho).
           repeat split; try assumption. left. split; [reflexivity|exact Ho].
        -- destruct (Hfb H) as (Hl & Hc & Ho).
           repeat split; try assumption. right. exact Ho.
      * injection H as <-. left. split; [exact En|]. split; [reflexivity|].
        exists qs, more. split; [reflexivity|exact Ev].
      * right. split; [exact En|].
        destruct (search_embed (path parsed)) as [m|] eqn:Em.
        -- injection H as <-.
           destruct (search_embed_sound _ _ Em) as (Hl & Hc & Ho).
           repeat split; try assumption. left. split; [reflexivity|exact Ho].
        -- destruct (Hfb H) as (Hl & Hc & Ho).
           repeat split; try assumption. right. exact Ho.
    + right. split; [exact En|].
      destruct (Hfb H) as (Hl & Hc & Ho).
      repeat split; try assumption. right. exact Ho.
Qed.

Lemma extract_video_id_sources_witness :
  exists parsed,
    Ref.urlparse "https://www.youtube.com/embed/dQw4w9WgXcQ?x=1" = Some parsed
    /\ ((netloc parsed = "youtu.be"
         /\ "dQw4w9WgXcQ" = lstrip_slash (path parsed) /\ "dQw4w9WgXcQ" <> "")
        \/ (netloc parsed <> "youtu.be"
            /\ endswith (netloc parsed) "youtube.com" = true
            /\ exists qs more,
                 Ref.parse_qs (query parsed) = Some qs
                 /\ qs_get "v" qs = Some ("dQw4w9WgXcQ" :: more))
        \/ (netloc parsed <> "youtu.be"
            /\ String.length "dQw4w9WgXcQ" = 11%nat
            /\ id_chars "dQw4w9WgXcQ" = true
            /\ ((endswith (netloc parsed) "youtube.com" = true
                 /\ occurs_in ("/embed/" ++ "dQw4w9WgXcQ") (path parsed))
                \/ occurs_in "dQw4w9WgXcQ"
                     "https://www.youtube.com/embed/dQw4w9WgXcQ?x=1"))).
Proof.
  apply (extract_video_id_sources Ref.urlparse Ref.parse_qs
           "https://www.youtube.com/embed/dQw4w9WgXcQ?x=1" "dQw4w9WgXcQ").
  vm_compute. reflexivity.
Defined.

(** X3: on a host that is neither [youtu.be] nor ends with [youtube.com],
    the resolver finds an identifier exactly when the URL contains 11
    consecutive characters of [[A-Za-z0-9_-]], wherever they stand. *)
Theorem extract_video_id_foreign_host :
  forall (urlparse : string -> option ParseResult)
         (parse_qs : string -> option qsdict) (url : string)
         (parsed : ParseResult),
    urlparse url = Some parsed ->
    netloc parsed <> "youtu.be" ->
    endswith (netloc parsed) "youtube.com" = false ->
    (extract_video_id_from_url urlparse parse_qs url <> None
     <-> exists r, String.length r = 11%nat /\ id_chars r = true
                   /\ occurs_in r url).
Proof.
  intros urlparse parse_qs url parsed Hp Hn He.
  unfold extract_video_id_from_url. rewrite Hp, He.
  apply String.eqb_neq in Hn. rewrite Hn. split.
  - intro H. destruct (search_id11 url) as [r|] eqn:Es; [|congruence].
    exists r. apply search_id11_sound. exact Es.
  - intros (r & Hl & Hc & pre & post & ->).
    apply search_id11_complete; assumption.
Qed.

Lemma extract_video_id_foreign_host_witness :
  extract_video_id_from_url Ref.urlparse Ref.parse_qs
    "https://example.com/an-ordinary-page" <> None
  <-> exists r, String.length r = 11%nat /\ id_chars r = true
                /\ occurs_in r "https://example.com/an-ordinary-page".
Proof.
  apply (extract_video_id_foreign_host Ref.urlparse Ref.parse_qs
           "https://example.com/an-ordinary-page"
           (mkParse "https" "example.com" "/an-ordinary-page" "" "" "")).
  - vm_compute. reflexivity.
  - intro H. discriminate H.
  - vm_compute. reflexivity.
Defined.

(** ** Trimming, the credential and the normaliser *)

Lemma lstrip_by_head :
  forall p s,
    lstrip_by p s = "" \/ exists a t, lstrip_by p s = String a t /\ p a = false.
Proof.
  intros p s; induction s as [|a s IH]; cbn.
  - left; reflexivity.
  - destruct (p a) eqn:E; [exact IH|]. right. exists a, s. split; [reflexivity|exact E].
Qed.

Lemma lstrip_by_fixed :
  forall p a t, p a = false -> lstrip_by p (String a t) = String a t.
Proof. intros p a t H. cbn. rewrite H. reflexivity. Qed.

Lemma list_ascii_of_string_app :
  forall s1 s2,
    list_ascii_of_string (s1 ++ s2)
    = list_ascii_of_string s1 ++ list_ascii_of_string s2.
Proof.
  induction s1 as [|a s1 IH]; intro s2; cbn; [reflexivity|].
  rewrite IH. reflexivity.
Qed.

Lemma string_of_list_ascii_app :
  forall l1 l2,
    string_of_list_ascii (l1 ++ l2)
    = (string_of_list_ascii l1 ++ string_of_list_ascii l2)%string.
Proof.
  induction l1 as [|a l1 IH]; intro l2; cbn; [reflexivity|].
  rewrite IH. reflexivity.
Qed.

Lemma string_rev_involutive : forall s, string_rev (string_rev s) = s.
Proof.
  intro s. unfold string_rev.
  rewrite list_ascii_of_string_of_list_ascii, rev_involutive.
  apply string_of_list_ascii_of_string.
Qed.

Lemma string_rev_cons :
  forall a s, string_rev (String a s) = (string_rev s ++ String a "")%string.
Proof.
  intros a s. unfold string_rev. cbn. rewrite string_of_list_ascii_app.
  reflexivity.
Qed.

Lemma string_rev_snoc :
  forall a s, string_rev (s ++ String a "") = String a (string_rev s).
Proof.
  intros a s. unfold string_rev.
  rewrite list_ascii_of_string_app, rev_app_distr. reflexivity.
Qed.

Lemma lstrip_by_snoc :
  forall p a s,
    p a = false ->
    exists u, lstrip_by p (s ++ String a "") = (u ++ String a "")%string.
Proof.
  intros p a s Ha; induction s as [|b s IH]; cbn.
  - rewrite Ha. exists EmptyString. reflexivity.
  - destruct (p b); [exact IH|]. exists (String b s). reflexivity.
Qed.

(** Trimming on the right keeps a first character that is not trimmed. *)
Lemma rstrip_by_head :
  forall p a t,
    p a = false -> exists u, rstrip_by p (String a t) = String a u.
Proof.
  intros p a t Ha. unfold rstrip_by. rewrite string_rev_cons.
  destruct (lstrip_by_snoc p a (string_rev t) Ha) as (u & ->).
  rewrite string_rev_snoc. eexists; reflexivity.
Qed.

Lemma lstrip_by_idempotent :
  forall p s, lstrip_by p (lstrip_by p s) = lstrip_by p s.
Proof.
  intros p s. destruct (lstrip_by_head p s) as [-> | (a & t & -> & Ha)].
  - reflexivity.
  - apply lstrip_by_fixed; exact Ha.
Qed.

Lemma rstrip_by_idempotent :
  forall p s, rstrip_by p (rstrip_by p s) = rstrip_by p s.
Proof.
  intros p s. unfold rstrip_by.
  rewrite string_rev_involutive, lstrip_by_idempotent. reflexivity.
Qed.

Lemma strip_idempotent : forall s, strip (strip s) = strip s.
Proof.
  intro s. unfold strip.
  assert (H : lstrip_by is_space (rstrip_by is_space (lstrip_by is_space s))
              = rstrip_by is_space (lstrip_by is_space s)).
  { destruct (lstrip_by_head is_space s) as [-> | (a & t & -> & Ha)].
    - reflexivity.
    - destruct (rstrip_by_head is_space a t Ha) as (u & ->).
      apply lstrip_by_fixed; exact Ha. }
  rewrite H. apply rstrip_by_idempotent.
Qed.

(** X4: [get_env_api_key] returns the value of the variable with the
    surrounding white space removed, which is never empty and is itself
    trimmed; when the variable is unset, empty or blank it raises the
    [RuntimeError] that names the variable. *)
Theorem get_env_api_key_trimmed :
  forall environ : option string,
    (exists v,
        environ = Some v /\ strip v <> ""
        /\ get_env_api_key environ = Ok (strip v)
        /\ strip (strip v) = strip v)
    \/ ((environ = None \/ exists v, environ = Some v /\ strip v = "")
        /\ get_env_api_key environ = Raise (RuntimeError missing_key_message)).
Proof.
  intros [v|]; unfold get_env_api_key.
  - destruct (String.eqb (strip v) "") eqn:E.
    + apply String.eqb_eq in E. right. split; [|reflexivity].
      right. exists v. split; [reflexivity|exact E].
    + apply String.eqb_neq in E. left. exists v.
      repeat split; try assumption. apply strip_idempotent.
  - right. split; [left; reflexivity|reflexivity].
Qed.

Lemma normalize_params_order_cases :
  forall max_results order,
    snd (normalize_params max_results order) = "relevance"
    \/ snd (normalize_params max_results order) = "time".
Proof.
  intros mr order. unfold normalize_params; cbn [snd].
  match goal with |- context [lower ?x] => set (od := lower x) end.
  destruct (String.eqb od "relevance") eqn:Hr.
  - apply String.eqb_eq in Hr. left. exact Hr.
  - cbn [orb]. destruct (String.eqb od "time") eqn:Ht.
    + apply String.eqb_eq in Ht. right. exact Ht.
    + left. reflexivity.
Qed.

(** X5: the normalised parameters are always usable as they are: the
    maximum lies between 1 and 100, and normalising the normalised pair
    again returns it unchanged. *)
Theorem normalize_params_idempotent :
  forall (max_results : option Z) (order : option string),
    1 <= fst (normalize_params max_results order) <= 100
    /\ normalize_params
         (Some (fst (normalize_params max_results order)))
         (Some (snd (normalize_params max_results order)))
       = normalize_params max_results order.
Proof.
  intros mr order.
  assert (Hr : 1 <= fst (normalize_params mr order) <= 100).
  { unfold normalize_params; cbn [fst]. destruct mr; lia. }
  split; [exact Hr|].
  destruct (normalize_params mr order) as [m od] eqn:E.
  pose proof (normalize_params_order_cases mr order) as Ho.
  rewrite E in Ho. cbn [fst snd] in *.
  unfold normalize_params. f_equal; [lia|].
  destruct Ho as [-> | ->]; reflexivity.
Qed.

(** ** The aggregator as a whole: calls, failures and the page *)

Lemma reply_comment_is_reply :
  forall r c, reply_comment r = Ok c -> isReply c = true.
Proof.
  intros r c H. unfold reply_comment in H.
  repeat match type of H with
         | bindO ?x _ = _ => destruct x; cbn [bindO] in H; try discriminate H
         end.
  injection H as <-. reflexivity.
Qed.

Lemma top_comment_flags :
  forall snippet top c,
    top_comment_of snippet top = Ok c -> isReply c = false /\ parentId c = JNull.
Proof.
  intros snippet top c H. unfold top_comment_of in H.
  repeat match type of H with
         | bindO ?x _ = _ => destruct x; cbn [bindO] in H; try discriminate H
         end.
  injection H as <-. split; reflexivity.
Qed.

Lemma mapO_Forall :
  forall (A B : Type) (f : A -> outcome B) (P : B -> Prop),
    (forall x y, f x = Ok y -> P y) ->
    forall l l', mapO f l = Ok l' -> Forall P l'.
Proof.
  intros A B f P Hf l l' H. apply mapO_Forall2 in H.
  induction H as [|x y l l' Hxy _ IH]; constructor; [eapply Hf; exact Hxy|exact IH].
Qed.

Lemma batch_replies_are_replies :
  forall r, Forall (fun c => isReply c = true) (batch_replies r).
Proof.
  intros [rdata|e]; unfold batch_replies; cbn [read_reply]; [|constructor].
  unfold read_batch.
  destruct (py_get rdata "items" (JList [])) as [ritems| |]; cbn [bindO];
    try constructor.
  destruct (py_iter ritems) as [rs| |]; cbn [bindO]; try constructor.
  destruct (mapO reply_comment rs) as [new| |] eqn:Em; cbn [bindO];
    try constructor.
  destruct (py_len ritems) as [n| |]; cbn [bindO]; try constructor.
  destruct (py_get rdata "nextPageToken" JNull) as [tok| |]; cbn [bindO];
    try constructor.
  eapply mapO_Forall; [|exact Em]. exact reply_comment_is_reply.
Qed.

Lemma fetched_replies_are_replies :
  forall calls, Forall (fun c => isReply c = true) (fetched_replies calls).
Proof.
  induction calls as [|c calls IH]; cbn; [constructor|].
  apply Forall_app. split; [apply batch_replies_are_replies|exact IH].
Qed.

Lemma inline_replies_are_replies :
  forall item inline,
    inline_replies item = Ok inline -> Forall (fun c => isReply c = true) inline.
Proof.
  intros item inline H. unfold inline_replies in H.
  destruct (py_get item "replies" JNull) as [rep| |]; cbn [bindO] in H;
    try discriminate H.
  destruct (py_get (py_or rep (JObj [])) "comments" JNull) as [cs| |];
    cbn [bindO] in H; try discriminate H.
  destruct (py_iter (py_or cs (JList []))) as [rs| |]; cbn [bindO] in H;
    try discriminate H.
  eapply mapO_Forall; [|exact H]. exact reply_comment_is_reply.
Qed.

Lemma thread_head_top_flags :
  forall item tid top rc inline,
    thread_head item = Ok (tid, top, rc, inline) ->
    isReply top = false /\ parentId top = JNull.
Proof.
  intros item tid top rc inline H. unfold thread_head in H.
  destruct (py_get item "snippet" (JObj [])) as [snippet| |]; cbn [bindO] in H;
    try discriminate H.
  destruct (py_get snippet "topLevelComment" (JObj [])) as [tlc| |];
    cbn [bindO] in H; try discriminate H.
  destruct (py_get tlc "snippet" (JObj [])) as [t| |]; cbn [bindO] in H;
    try discriminate H.
  destruct (py_get item "id" JNull) as [i| |]; cbn [bindO] in H;
    try discriminate H.
  destruct (py_get snippet "totalReplyCount" (JInt 0)) as [n| |];
    cbn [bindO] in H; try discriminate H.
  destruct (top_comment_of snippet t) as [tc| |] eqn:Et; cbn [bindO] in H;
    try discriminate H.
  destruct (inline_replies item) as [inl| |]; cbn [bindO] in H;
    try discriminate H.
  injection H as _ <- _ _. eapply top_comment_flags; exact Et.
Qed.

(** A failed call, wherever it stands in a log, is the last call of the log
    and its exception is the outcome. *)
Definition fails_fast {A} (calls : list (request * reply)) (out : outcome A)
  : Prop :=
  forall pre req e post,
    calls = pre ++ (req, Fail e) :: post -> post = [] /\ out = Raise e.

Lemma app_eq_app_notin :
  forall (T : Type) (c1 c2 pre post : list T) (x : T),
    c1 ++ c2 = pre ++ x :: post -> ~ In x c1 ->
    exists pre', pre = c1 ++ pre' /\ c2 = pre' ++ x :: post.
Proof.
  intros T c1; induction c1 as [|a c1 IH]; intros c2 pre post x H Hn.
  - exists pre. split; [reflexivity|exact H].
  - destruct pre as [|b pre]; cbn in H; injection H as Ha H.
    + subst a. exfalso. apply Hn. left. reflexivity.
    + subst b. destruct (IH c2 pre post x H) as (pre' & -> & ->).
      * intro Hi. apply Hn. right. exact Hi.
      * exists pre'. split; reflexivity.
Qed.

Lemma fails_fast_no_fail_when_ok :
  forall A (calls : list (request * reply)) (a : A) req e,
    fails_fast calls (Ok a) -> ~ In (req, Fail e) calls.
Proof.
  intros A calls a req e Hf Hi. apply in_split in Hi as (l1 & l2 & ->).
  destruct (Hf l1 req e l2 eq_refl) as [_ H]. discriminate H.
Qed.

Section LoopCalls.

Variable World : Type.
Variable upstream : request -> World -> reply * World.
Variable parent_id : json.
Variable api_key : string.
Variable max_replies_per_thread : Z.

Let run := loop_run World upstream parent_id api_key max_replies_per_thread.

(** Each further batch needs at least one new reply, so the loop makes at
    most as many calls as the budget it has left. *)
Lemma loop_run_call_bound :
  forall fetched tok payload w calls out w',
    run fetched tok payload w calls out w' ->
    (List.length calls <= Z.to_nat (max_replies_per_thread - fetched))%nat.
Proof.
  induction 1 as [ | | | ? ? ? ? ? ? ? ? ? ? ? ? ? Hlt _ Hr Hb _ IH ]; cbn;
    try lia.
  destruct (breaks_false_progress _ _ _ _ _ Hr Hb) as [_ Hn]. lia.
Qed.

Lemma loop_run_fails_fast :
  forall fetched tok payload w calls out w',
    run fetched tok payload w calls out w' -> fails_fast calls out.
Proof.
  induction 1 as [ | ? ? ? ? ? ? ? _ _ Hr | ? ? ? ? ? ? ? ? ? ? _ _ Hr _
                   | ? ? ? ? ? ? ? ? ? ? ? ? ? _ _ Hr _ _ IH ];
    intros pre rq ex post Hc.
  - destruct pre; discriminate Hc.
  - destruct pre as [|c pre]; [|destruct pre; discriminate Hc].
    injection Hc as _ -> <-. cbn in Hr. injection Hr as <-.
    split; reflexivity.
  - destruct pre as [|c pre]; [|destruct pre; discriminate Hc].
    injection Hc as _ -> _. discriminate Hr.
  - destruct pre as [|c pre]; cbn in Hc.
    + injection Hc as _ -> _. discriminate Hr.
    + injection Hc as _ Hc. exact (IH pre rq ex post Hc).
Qed.

End LoopCalls.

(** What a processed thread owes to its item: the head fields, the inline
    replies as a prefix of its replies, and the flags. *)
Definition thread_of_item (item : json) (thr : thread) : Prop :=
  exists inline rest,
    thread_head item
    = Ok (threadId thr, topLevelComment thr, replyCount thr, inline)
    /\ replies thr = inline ++ rest
    /\ Forall (fun c => isReply c = true) (replies thr)
    /\ isReply (topLevelComment thr) = false
    /\ parentId (topLevelComment thr) = JNull.

Section Summary.

Variable World : Type.
Variable upstream : request -> World -> reply * World.
Variable api_key : string.
Variable include_replies : bool.
Variable max_replies_per_thread : Z.

Lemma process_thread_summary :
  forall item st,
  exists calls out w',
    process_thread upstream api_key include_replies max_replies_per_thread
      item st
    = (out, mkIO w' (trace st ++ calls))
    /\ out <> OutOfFuel
    /\ Forall (fun c => is_comments_call c = true) calls
    /\ (List.length calls <= Z.to_nat max_replies_per_thread)%nat
    /\ fails_fast calls out
    /\ forall thr, out = Ok thr -> thread_of_item item thr.
Proof.
  intros item st. rewrite process_thread_unfold.
  assert (Hst : forall (o : outcome thread),
             (o, st) = (o, mkIO (world st) (trace st ++ []))).
  { intro o. rewrite app_nil_r. destruct st; reflexivity. }
  assert (Hnil : forall (o : outcome thread), fails_fast [] o).
  { intros o pre rq e post Hc. destruct pre; discriminate Hc. }
  destruct (thread_head item) as [[[[tid top] rc] inline]|e|] eqn:Eh.
  - pose proof (thread_head_top_flags _ _ _ _ _ Eh) as [Hf1 Hf2].
    pose proof (inline_replies_are_replies _ _ (thread_head_inline _ _ _ _ _ Eh))
      as Hin.
    destruct (enters_loop include_replies rc inline) as [[|]|e|] eqn:Ee.
    + destruct (reply_loop_run World upstream (comment_id top) api_key
                  max_replies_per_thread (Z.to_nat max_replies_per_thread)
                  0 JNull inline st) as (calls & o & w' & Hrun & Hloop).
      { rewrite Z.sub_0_r. apply Nat.le_refl. }
      rewrite Hrun. exists calls, (finish_thread tid top rc o), w'.
      split; [reflexivity|].
      pose proof (loop_run_outcome _ _ _ _ _ _ _ _ _ _ _ _ Hloop) as Ho.
      pose proof (loop_run_call_bound _ _ _ _ _ _ _ _ _ _ _ _ Hloop) as Hb.
      pose proof (loop_run_fails_fast _ _ _ _ _ _ _ _ _ _ _ _ Hloop) as Hff.
      rewrite Z.sub_0_r in Hb.
      split; [destruct o; cbn; [discriminate|discriminate|congruence]|].
      split; [eapply loop_run_calls; exact Hloop|].
      split; [exact Hb|]. split.
      * intros pre rq e post Hc. destruct (Hff pre rq e post Hc) as [-> ->].
        split; reflexivity.
      * intros thr Hthr. destruct o as [p| |]; cbn in Hthr;
          try discriminate Hthr.
        injection Hthr as <-.
        pose proof (loop_run_payload _ _ _ _ _ _ _ _ _ _ _ _ Hloop _ eq_refl)
          as Hp.
        exists inline, (fetched_replies calls). cbn.
        split; [exact Eh|]. split; [exact Hp|].
        split; [|split; assumption].
        rewrite Hp. apply Forall_app. split; [exact Hin|].
        apply fetched_replies_are_replies.
    + exists [], (Ok (mkThread tid top rc inline)), (world st).
      split; [apply Hst|]. split; [discriminate|]. split; [constructor|].
      split; [cbn; lia|]. split; [apply Hnil|].
      intros thr Hthr. injection Hthr as <-. exists inline, []. cbn.
      rewrite app_nil_r. split; [exact Eh|]. repeat split; assumption.
    + exists [], (Raise e), (world st).
      split; [apply Hst|]. split; [discriminate|]. split; [constructor|].
      split; [cbn; lia|]. split; [apply Hnil|].
      intros thr Hthr; discriminate Hthr.
    + exfalso. exact (fuel_free_enters_loop _ _ _ Ee).
  - exists [], (Raise e), (world st).
    split; [apply Hst|]. split; [discriminate|]. split; [constructor|].
    split; [cbn; lia|]. split; [apply Hnil|].
    intros thr Hthr; discriminate Hthr.
  - exfalso. exact (fuel_free_thread_head _ Eh).
Qed.

Lemma threads_summary :
  forall its st,
  exists calls out w',
    mapM (process_thread upstream api_key include_replies
            max_replies_per_thread) its st
    = (out, mkIO w' (trace st ++ calls))
    /\ out <> OutOfFuel
    /\ Forall (fun c => is_comments_call c = true) calls
    /\ (List.length calls
        <= List.length its * Z.to_nat max_replies_per_thread)%nat
    /\ fails_fast calls out
    /\ forall ths, out = Ok ths -> Forall2 thread_of_item its ths.
Proof.
  induction its as [|item its IH]; intro st.
  - exists [], (Ok []), (world st). cbn [mapM]. unfold ret.
    rewrite app_nil_r. split; [destruct st; reflexivity|].
    split; [discriminate|]. split; [constructor|]. split; [cbn; lia|].
    split; [intros pre rq e post Hc; destruct pre; discriminate Hc|].
    intros ths Hths. injection Hths as <-. constructor.
  - cbn [mapM]. unfold bind at 1.
    destruct (process_thread_summary item st)
      as (c1 & o1 & w1 & -> & Ho1 & Hc1 & Hb1 & Hf1 & Hok1).
    destruct o1 as [thr|e|]; [| |congruence].
    + unfold bind at 1.
      destruct (IH (mkIO w1 (trace st ++ c1)))
        as (c2 & o2 & w2 & Hrun2 & Ho2 & Hc2 & Hb2 & Hf2 & Hok2).
      rewrite Hrun2. cbn [trace]. rewrite <- app_assoc.
      destruct o2 as [ths|e|]; [| |congruence].
      * exists (c1 ++ c2), (Ok (thr :: ths)), w2. unfold ret.
        split; [reflexivity|]. split; [discriminate|].
        split; [apply Forall_app; split; assumption|].
        split; [rewrite length_app; cbn [List.length]; lia|]. split.
        -- intros pre rq e post Hc.
           destruct (app_eq_app_notin _ _ _ _ _ _ Hc
                       (fails_fast_no_fail_when_ok _ _ _ _ _ Hf1))
             as (pre' & -> & Hc2').
           destruct (Hf2 pre' rq e post Hc2') as [_ H]. discriminate H.
        -- intros l Hl. injection Hl as <-.
           constructor; [apply Hok1; reflexivity|apply Hok2; reflexivity].
      * exists (c1 ++ c2), (Raise e), w2.
        split; [reflexivity|]. split; [discriminate|].
        split; [apply Forall_app; split; assumption|].
        split; [rewrite length_app; cbn [List.length]; lia|]. split.
        -- intros pre rq e' post Hc.
           destruct (app_eq_app_notin _ _ _ _ _ _ Hc
                       (fails_fast_no_fail_when_ok _ _ _ _ _ Hf1))
             as (pre' & -> & Hc2').
           destruct (Hf2 pre' rq e' post Hc2') as [-> H]. injection H as <-.
           split; reflexivity.
        -- intros l Hl. discriminate Hl.
    + exists c1, (Raise e), w1.
      split; [reflexivity|]. split; [discriminate|]. split; [exact Hc1|].
      split; [cbn [List.length]; lia|]. split.
      * intros pre rq e' post Hc. destruct (Hf1 pre rq e' post Hc) as [-> H].
        injection H as <-. split; reflexivity.
      * intros l Hl. discriminate Hl.
Qed.

End Summary.

Lemma exn_eq_or : forall x y : exn, x = y \/ x <> y.
Proof.
  intros x y.
  destruct x as [| | | m | m], y as [| | | m' | m'];
    try (left; reflexivity); try (right; discriminate);
    destruct (string_dec m m') as [-> | Hne];
    try (left; reflexivity); right; congruence.
Qed.

Lemma fetch_summary :
  forall (World : Type) (upstream : request -> World -> reply * World)
         video_id api_key max_results page_token order include_replies
         max_replies_per_thread (st : io_state World),
    let req := thread_list_request video_id api_key max_results page_token
                 order in
    let answer := fst (upstream req (world st)) in
    exists calls out w',
      fetch_comment_threads upstream video_id api_key max_results page_token
        order include_replies max_replies_per_thread st
      = (out, mkIO w' (trace st ++ (req, answer) :: calls))
      /\ Forall (fun c => is_comments_call c = true) calls
      /\ (forall items, response_items answer = Ok items ->
          (List.length calls
           <= List.length items * Z.to_nat max_replies_per_thread)%nat)
      /\ ((forall items, response_items answer <> Ok items) -> calls = [])
      /\ fails_fast ((req, answer) :: calls) out
      /\ forall page, out = Ok page ->
           videoId page = video_id
           /\ (exists data,
                 answer = Resp data
                 /\ py_get data "nextPageToken" JNull
                    = Ok (nextPageToken page))
           /\ exists items,
                response_items answer = Ok items
                /\ Forall2 thread_of_item items (threads page).
Proof.
  intros World upstream vid key maxr ptok order inc max st. cbn zeta.
  unfold fetch_comment_threads. fold (thread_list_request vid key maxr ptok order).
  set (req := thread_list_request vid key maxr ptok order).
  unfold bind at 1, _http_get.
  destruct (upstream req (world st)) as [r w0] eqn:Eu. cbn [fst].
  assert (Hstop : forall e : exn,
             (forall items, response_items r <> Ok items) ->
             (forall x, r <> Fail x \/ x = e) ->
             exists calls (out : outcome comment_page) w',
               (Raise e, mkIO w0 (trace st ++ [(req, r)]))
               = (out, mkIO w' (trace st ++ (req, r) :: calls))
               /\ Forall (fun c => is_comments_call c = true) calls
               /\ (forall items, response_items r = Ok items ->
                   (List.length calls
                    <= List.length items * Z.to_nat max)%nat)
               /\ ((forall items, response_items r <> Ok items) -> calls = [])
               /\ fails_fast ((req, r) :: calls) out
               /\ forall page, out = Ok page ->
                    videoId page = vid
                    /\ (exists data,
                          r = Resp data
                          /\ py_get data "nextPageToken" JNull
                             = Ok (nextPageToken page))
                    /\ exists items,
                         response_items r = Ok items
                         /\ Forall2 thread_of_item items (threads page)).
  { intros e Hno Hfail. exists [], (Raise e), w0.
    split; [reflexivity|]. split; [constructor|].
    split; [intros items Hi; exfalso; exact (Hno items Hi)|].
    split; [reflexivity|]. split.
    - intros pre rq e' post Hc.
      destruct pre as [|c pre]; [|destruct pre; discriminate Hc].
      injection Hc as _ -> <-. split; [reflexivity|].
      destruct (Hfail e') as [H | ->]; [congruence|reflexivity].
    - intros page Hp. discriminate Hp. }
  destruct r as [data|e].
  2:{ apply Hstop; [intros items H; discriminate H|].
      intro x. destruct (exn_eq_or x e) as [-> | Hne]; [right; reflexivity|].
      left. congruence. }
  unfold bind at 1, lift.
  destruct (py_get data "items" (JList [])) as [items| |] eqn:E1.
  2:{ apply Hstop; [|intro x; left; discriminate].
      intros its H. cbn in H. rewrite E1 in H. discriminate H. }
  2:{ exfalso. exact (fuel_free_py_get _ _ _ E1). }
  unfold bind at 1.
  destruct (py_get data "nextPageToken" JNull) as [tok| |] eqn:E2.
  3:{ exfalso. exact (fuel_free_py_get _ _ _ E2). }
  2:{ exfalso. destruct data; cbn in E1, E2; discriminate. }
  unfold bind at 1.
  destruct (py_iter items) as [its| |] eqn:E3.
  2:{ apply Hstop; [|intro x; left; discriminate].
      intros l H. cbn in H. rewrite E1 in H. cbn in H. rewrite E3 in H.
      discriminate H. }
  2:{ exfalso. exact (fuel_free_py_iter _ E3). }
  assert (Hits : response_items (Resp data) = Ok its).
  { cbn. rewrite E1. cbn. exact E3. }
  unfold bind at 1.
  destruct (threads_summary World upstream key inc max its
              (mkIO w0 (trace st ++ [(req, Resp data)])))
    as (calls & out & w' & Hrun & Ho & Hc & Hb & Hf & Hok).
  rewrite Hrun. cbn [trace]. rewrite <- app_assoc. cbn [app].
  assert (Hff : forall (o : outcome comment_page),
             (forall e, out = Raise e -> o = Raise e) ->
             fails_fast ((req, Resp data) :: calls) o).
  { intros o Ho' pre rq e post Hcs.
    destruct pre as [|c pre]; cbn in Hcs; [discriminate Hcs|].
    injection Hcs as _ Hcs. destruct (Hf pre rq e post Hcs) as [-> Hout].
    split; [reflexivity|apply Ho'; exact Hout]. }
  destruct out as [ths|e|]; [| |congruence].
  - exists calls, (Ok (mkPage vid tok ths)), w'. unfold ret.
    split; [reflexivity|]. split; [exact Hc|].
    split; [intros l Hl; rewrite Hits in Hl; injection Hl as <-; exact Hb|].
    split; [intro Hno; exfalso; exact (Hno its Hits)|].
    split; [apply Hff; intros e He; discriminate He|].
    intros page Hp. injection Hp as <-. cbn.
    split; [reflexivity|]. split; [exists data; split; [reflexivity|exact E2]|].
    exists its. split; [exact Hits|apply Hok; reflexivity].
  - exists calls, (Raise e), w'.
    split; [reflexivity|]. split; [exact Hc|].
    split; [intros l Hl; rewrite Hits in Hl; injection Hl as <-; exact Hb|].
    split; [intro Hno; exfalso; exact (Hno its Hits)|].
    split; [apply Hff; intros e' He; injection He as <-; reflexivity|].
    intros page Hp. discriminate Hp.
Qed.

(** A service whose reply listing is down, and a thread item whose inline
    replies already cover the count it reports. *)
Module Faulty.

Definition service (req : request) (w : unit) : reply * unit :=
  match req with
  | CommentThreads _ _ _ _ _ =>
      (Resp (JObj [("items", JList [Demo.thread_json; Demo.thread_json])]), w)
  | Comments _ _ _ _ => (Fail (RequestException "503"), w)
  end.

Definition covered_item : json :=
  JObj [("id", JStr "thread-2");
        ("snippet", JObj [("totalReplyCount", JInt 1)]);
        ("replies", JObj [("comments", JList [Demo.reply_json 0])])].

Definition odd_count_item : json :=
  JObj [("id", JStr "thread-3");
        ("snippet", JObj [("totalReplyCount", JStr "many")])].

End Faulty.

(** X6: every call of [fetch_comment_threads] starts with exactly one
    thread-listing call, built from its own arguments; every later call is a
    reply-listing call, and there are at most [max_replies_per_thread] of
    them per item of the answer (none when the answer has no readable
    items), whatever the service answers. *)
Theorem fetch_calls_shape :
  forall (World : Type) (upstream : request -> World -> reply * World)
         (video_id api_key : string) (max_results : Z)
         (page_token : option string) (order : string)
         (include_replies : bool) (max_replies_per_thread : Z)
         (st : io_state World),
    let req := thread_list_request video_id api_key max_results page_token
                 order in
    let answer := fst (upstream req (world st)) in
    let run := fetch_comment_threads upstream video_id api_key max_results
                 page_token order include_replies max_replies_per_thread st in
    exists calls,
      trace (snd run) = trace st ++ (req, answer) :: calls
      /\ Forall (fun c => is_comments_call c = true) calls
      /\ (forall items, response_items answer = Ok items ->
          (List.length calls
           <= List.length items * Z.to_nat max_replies_per_thread)%nat)
      /\ ((forall items, response_items answer <> Ok items) -> calls = []).
Proof.
  intros World upstream vid key maxr ptok order inc max st. cbn zeta.
  destruct (fetch_summary World upstream vid key maxr ptok order inc max st)
    as (calls & out & w' & -> & Hc & Hb & Hn & _).
  exists calls. cbn [snd trace]. repeat split; assumption.
Qed.

(** X7: the page of a successful call echoes the video id, carries the
    [nextPageToken] of the thread-listing answer, and has one thread per item
    of the answer, in the same order; each thread has the id, top-level
    comment and reply count read from its item, its replies start with the
    item's inline replies, every reply is flagged [isReply], and the
    top-level comment is not and has no parent. *)
Theorem fetch_page_shape :
  forall (World : Type) (upstream : request -> World -> reply * World)
         (video_id api_key : string) (max_results : Z)
         (page_token : option string) (order : string)
         (include_replies : bool) (max_replies_per_thread : Z)
         (st : io_state World) (page : comment_page),
    fst (fetch_comment_threads upstream video_id api_key max_results
           page_token order include_replies max_replies_per_thread st)
    = Ok page ->
    let answer :=
      fst (upstream (thread_list_request video_id api_key max_results
                       page_token order) (world st)) in
    videoId page = video_id
    /\ (exists data,
          answer = Resp data
          /\ py_get data "nextPageToken" JNull = Ok (nextPageToken page))
    /\ exists items,
         response_items answer = Ok items
         /\ Forall2 thread_of_item items (threads page).
Proof.
  intros World upstream vid key maxr ptok order inc max st page H. cbn zeta.
  destruct (fetch_summary World upstream vid key maxr ptok order inc max st)
    as (calls & out & w' & Hrun & _ & _ & _ & _ & Hok).
  rewrite Hrun in H. cbn [fst] in H. exact (Hok page H).
Qed.

Lemma fetch_page_shape_witness :
  exists page,
    fst (fetch_comment_threads Demo.service "vid" "key" 20 None "relevance"
           true 20 Demo.start) = Ok page
    /\ videoId page = "vid"
    /\ (exists data,
          fst (Demo.service (thread_list_request "vid" "key" 20 None "relevance")
                 (world Demo.start)) = Resp data
          /\ py_get data "nextPageToken" JNull = Ok (nextPageToken page))
    /\ exists items,
         response_items
           (fst (Demo.service
                   (thread_list_request "vid" "key" 20 None "relevance")
                   (world Demo.start))) = Ok items
         /\ Forall2 thread_of_item items (threads page).
Proof.
  eexists. split; [vm_compute; reflexivity|].
  apply (fetch_page_shape nat Demo.service "vid" "key" 20 None "relevance"
           true 20 Demo.start).
  vm_compute. reflexivity.
Defined.

(** X8: the aggregator fails fast.  If any logged call of a
    [fetch_comment_threads] run failed, it is the last call made and the
    whole call raises that very exception: no further thread is processed
    and no partial page is returned. *)
Theorem fetch_fails_fast :
  forall (World : Type) (upstream : request -> World -> reply * World)
         (video_id api_key : string) (max_results : Z)
         (page_token : option string) (order : string)
         (include_replies : bool) (max_replies_per_thread : Z)
         (st : io_state World)
         (pre post : list (request * reply)) (req : request) (e : exn),
    trace (snd (fetch_comment_threads upstream video_id api_key max_results
                  page_token order include_replies max_replies_per_thread st))
    = trace st ++ pre ++ (req, Fail e) :: post ->
    post = []
    /\ fst (fetch_comment_threads upstream video_id api_key max_results
              page_token order include_replies max_replies_per_thread st)
       = Raise e.
Proof.
  intros World upstream vid key maxr ptok order inc max st pre post req e H.
  destruct (fetch_summary World upstream vid key maxr ptok order inc max st)
    as (calls & out & w' & Hrun & _ & _ & _ & Hf & _).
  rewrite Hrun in *. cbn [fst snd trace] in *.
  apply app_inv_head in H. exact (Hf pre req e post H).
Qed.

Lemma fetch_fails_fast_witness :
  @nil (request * reply) = []
  /\ fst (fetch_comment_threads Faulty.service "vid" "key" 20 None
            "relevance" true 20 Demo.short_start)
     = Raise (RequestException "503").
Proof.
  apply (fetch_fails_fast unit Faulty.service "vid" "key" 20 None "relevance"
           true 20 Demo.short_start
           [(CommentThreads "vid" 20 "relevance" "key" None,
             Resp (JObj [("items",
                          JList [Demo.thread_json; Demo.thread_json])]))]
           [] (Comments (JStr "top-1") 20 "key" None)
           (RequestException "503")).
  vm_compute. reflexivity.
Defined.

(** ** The test that guards the reply loop *)

(** A JSON value that [<] can compare with an integer. *)
Definition is_number (j : json) : bool :=
  match j with
  | JInt _ | JBool _ => true
  | _ => false
  end.

(** X9: when the reported reply count is falsy (0, absent, null) or an
    integer that the inline replies already reach, the thread is returned
    with exactly its inline replies and no call is made, even with
    [include_replies] on and a positive budget. *)
Theorem process_thread_count_covered :
  forall (World : Type) (upstream : request -> World -> reply * World)
         (api_key : string) (include_replies : bool)
         (max_replies_per_thread : Z) (item : json) (st : io_state World)
         (tid : json) (top : comment) (rc : json) (inline : list comment),
    thread_head item = Ok (tid, top, rc, inline) ->
    (py_truthy rc = false
     \/ exists n, rc = JInt n /\ n <= Z.of_nat (List.length inline)) ->
    process_thread upstream api_key include_replies max_replies_per_thread
      item st
    = (Ok (mkThread tid top rc inline), st).
Proof.
  intros World upstream key inc max item st tid top rc inline Hh Hrc.
  rewrite process_thread_unfold, Hh. unfold enters_loop.
  destruct Hrc as [Hf | (n & -> & Hn)].
  - rewrite Hf, andb_false_r. reflexivity.
  - destruct (inc && py_truthy (JInt n)); [|reflexivity]. cbn [py_int_lt].
    destruct (Z.of_nat (List.length inline) <? n) eqn:E;
      [apply Z.ltb_lt in E; lia|reflexivity].
Qed.

Lemma process_thread_count_covered_witness :
  exists thr,
    process_thread Faulty.service "key" true 20 Faulty.covered_item
      Demo.short_start = (Ok thr, Demo.short_start)
    /\ List.length (replies thr) = 1%nat.
Proof.
  eexists. split.
  - eapply (process_thread_count_covered unit Faulty.service "key" true 20
              Faulty.covered_item Demo.short_start).
    + vm_compute. reflexivity.
    + right. exists 1. split; [reflexivity|]. vm_compute. intro H; discriminate H.
  - reflexivity.
Defined.

(** X10: when [include_replies] is on, the budget is positive and the
    reported reply count is an integer above the number of inline replies,
    the reply listing is called at least once; the first call asks for the
    replies of the top-level comment's id, [min(100, budget)] of them, with
    no page token. *)
Theorem process_thread_first_batch :
  forall (World : Type) (upstream : request -> World -> reply * World)
         (api_key : string) (max_replies_per_thread : Z) (item : json)
         (st : io_state World)
         (tid : json) (top : comment) (n : Z) (inline : list comment),
    thread_head item = Ok (tid, top, JInt n, inline) ->
    Z.of_nat (List.length inline) < n ->
    0 < max_replies_per_thread ->
    let first := Comments (comment_id top) (Z.min 100 max_replies_per_thread)
                   api_key None in
    exists calls,
      trace (snd (process_thread upstream api_key true max_replies_per_thread
                    item st))
      = trace st ++ (first, fst (upstream first (world st))) :: calls.
Proof.
  intros World upstream key max item st tid top n inline Hh Hn Hmax. cbn zeta.
  rewrite process_thread_unfold, Hh. unfold enters_loop.
  replace (py_truthy (JInt n)) with true
    by (cbn; symmetry; apply negb_true_iff, Z.eqb_neq; lia).
  cbn [andb py_int_lt].
  replace (Z.of_nat (List.length inline) <? n) with true
    by (symmetry; apply Z.ltb_lt; exact Hn).
  destruct (reply_loop_run World upstream (comment_id top) key max
              (Z.to_nat max) 0 JNull inline st)
    as (calls & o & w' & Hrun & Hloop).
  { rewrite Z.sub_0_r. apply Nat.le_refl. }
  rewrite Hrun. cbn [snd trace].
  assert (Hreq : batch_request (comment_id top) key max 0 JNull
                 = Comments (comment_id top) (Z.min 100 max) key None).
  { unfold batch_request. rewrite Z.sub_0_r. reflexivity. }
  inversion Hloop as [ ? ? ? ? Hge | ? ? ? ? r ? ? _ Hu _
                      | ? ? ? ? r ? ? ? ? ? _ Hu _ _
                      | ? ? ? ? r ? ? ? ? ? calls' ? ? _ Hu _ _ _ ]; subst.
  - lia.
  - rewrite Hreq in *. rewrite Hu. exists []. reflexivity.
  - rewrite Hreq in *. rewrite Hu. exists []. reflexivity.
  - rewrite Hreq in *. rewrite Hu. exists calls'. reflexivity.
Qed.

Lemma process_thread_first_batch_witness :
  exists calls,
    trace (snd (process_thread Demo.service "key" true 250 Demo.thread_json
                  Demo.start))
    = trace Demo.start
      ++ (Comments (JStr "top-1") (Z.min 100 250) "key" None,
          fst (Demo.service
                 (Comments (JStr "top-1") (Z.min 100 250) "key" None)
                 (world Demo.start))) :: calls.
Proof.
  refine (process_thread_first_batch nat Demo.service "key" 250
            Demo.thread_json Demo.start (JStr "thread-1")
            (mkComment (JStr "top-1") (JStr "a comment") JNull JNull JNull
               JNull (JInt 7) false JNull)
            50 _ _ _ _).
  - vm_compute. reflexivity.
  - vm_compute. reflexivity.
  - reflexivity.
Defined.

(** X11: a reply count that is truthy but not a number (a string, a list,
    an object) is passed through untouched when [include_replies] is off,
    and makes the thread, hence the whole call, fail with [TypeError] before
    any reply-listing call when it is on. *)
Theorem process_thread_bad_reply_count :
  forall (World : Type) (upstream : request -> World -> reply * World)
         (api_key : string) (max_replies_per_thread : Z) (item : json)
         (st : io_state World)
         (tid : json) (top : comment) (rc : json) (inline : list comment),
    thread_head item = Ok (tid, top, rc, inline) ->
    py_truthy rc = true ->
    is_number rc = false ->
    process_thread upstream api_key true max_replies_per_thread item st
    = (Raise TypeError, st)
    /\ process_thread upstream api_key false max_replies_per_thread item st
       = (Ok (mkThread tid top rc inline), st).
Proof.
  intros World upstream key max item st tid top rc inline Hh Ht Hn.
  rewrite !process_thread_unfold, Hh. unfold enters_loop. rewrite Ht.
  cbn [andb]. split; [|reflexivity].
  destruct rc; cbn in Hn; try discriminate Hn; reflexivity.
Qed.

Lemma process_thread_bad_reply_count_witness :
  process_thread Demo.service "key" true 20 Faulty.odd_count_item Demo.start
  = (Raise TypeError, Demo.start)
  /\ exists thr,
       process_thread Demo.service "key" false 20 Faulty.odd_count_item
         Demo.start = (Ok thr, Demo.start)
       /\ replyCount thr = JStr "many".
Proof.
  destruct (process_thread_bad_reply_count nat Demo.service "key" 20
              Faulty.odd_count_item Demo.start
              (JStr "thread-3")
              (mkComment JNull JNull JNull JNull JNull JNull (JInt 0) false JNull)
              (JStr "many") [] eq_refl eq_refl eq_refl) as [H1 H2].
  split; [exact H1|]. eexists. split; [exact H2|reflexivity].
Defined.

(** X12: an item whose [replies] field is missing, null or empty, or whose
    [replies] object has a missing, null or empty [comments], has no inline
    replies; a [replies] field that is truthy but not an object makes the
    item fail with [AttributeError]. *)
Theorem inline_replies_absent :
  forall o : dict,
    (py_truthy (get_or "replies" o JNull) = false ->
     inline_replies (JObj o) = Ok [])
    /\ (forall ro,
          get_or "replies" o JNull = JObj ro ->
          py_truthy (get_or "comments" ro JNull) = false ->
          inline_replies (JObj o) = Ok [])
    /\ (py_truthy (get_or "replies" o JNull) = true ->
        (forall ro, get_or "replies" o JNull <> JObj ro) ->
        inline_replies (JObj o) = Raise AttributeError).
Proof.
  intro o. unfold inline_replies. cbn [py_get bindO].
  fold (get_or "replies" o JNull). set (rep := get_or "replies" o JNull).
  split; [|split].
  - intro Hf. unfold py_or. rewrite Hf. reflexivity.
  - intros ro Hr Hc. rewrite Hr.
    assert (Hg : py_get (py_or (JObj ro) (JObj [])) "comments" JNull
                 = Ok (get_or "comments" ro JNull)).
    { unfold py_or. destruct ro; reflexivity. }
    rewrite Hg. cbn [bindO]. unfold py_or. rewrite Hc. reflexivity.
  - intros Ht Hno.
    assert (Hg : py_get (py_or rep (JObj [])) "comments" JNull
                 = Raise AttributeError).
    { unfold py_or. rewrite Ht.
      destruct rep; try reflexivity. exfalso. eapply Hno; reflexivity. }
    rewrite Hg. reflexivity.
Qed.

(** ** The request handler as a whole *)

Section HandlerRuns.

Variable urlparse : string -> option ParseResult.
Variable parse_qs : string -> option qsdict.
Variable py_int : string -> option Z.
Variable World : Type.
Variable upstream : request -> World -> reply * World.

Lemma or_none_not_blank : forall s, or_none s <> Some "".
Proof.
  intros s H. unfold or_none in H.
  destruct (String.eqb s "") eqn:E; [discriminate H|].
  injection H as ->. discriminate E.
Qed.

(** X13: once the path and its query string are decoded, [_parse_query]
    fails only with [ValueError] and only because [maxResults] or
    [maxRepliesPerThread] is given and is not an integer; otherwise the
    string fields are the trimmed first values, a blank [pageToken] or
    [order] is absent, [maxResults] is absent when blank and
    [maxRepliesPerThread] is 20 when blank. *)
Theorem parse_query_outcome :
  forall path parsed qs,
    urlparse path = Some parsed ->
    parse_qs (query parsed) = Some qs ->
    (exists q,
        _parse_query urlparse parse_qs py_int path = Ok q
        /\ q_url q = strip (get_one qs "url")
        /\ q_videoId q = strip (get_one qs "videoId")
        /\ q_pageToken q = or_none (strip (get_one qs "pageToken"))
        /\ q_order q = or_none (strip (get_one qs "order"))
        /\ (get_one qs "maxResults" = "" -> q_maxResults q = None)
        /\ (get_one qs "maxResults" <> "" ->
            q_maxResults q = py_int (get_one qs "maxResults"))
        /\ (get_one qs "maxRepliesPerThread" = "" ->
            q_maxRepliesPerThread q = 20)
        /\ (get_one qs "maxRepliesPerThread" <> "" ->
            py_int (get_one qs "maxRepliesPerThread")
            = Some (q_maxRepliesPerThread q)))
    \/ (_parse_query urlparse parse_qs py_int path = Raise ValueError
        /\ ((get_one qs "maxResults" <> ""
             /\ py_int (get_one qs "maxResults") = None)
            \/ (get_one qs "maxRepliesPerThread" <> ""
                /\ py_int (get_one qs "maxRepliesPerThread") = None))).
Proof.
  intros path parsed qs Hp Hq. unfold _parse_query. rewrite Hp, Hq.
  unfold int_of.
  destruct (String.eqb (get_one qs "maxResults") "") eqn:E1;
    [apply String.eqb_eq in E1 | apply String.eqb_neq in E1].
  - cbn [bindO].
    destruct (String.eqb (get_one qs "maxRepliesPerThread") "") eqn:E2;
      [apply String.eqb_eq in E2 | apply String.eqb_neq in E2].
    + cbn [bindO]. left. eexists. split; [reflexivity|]. cbn.
      repeat split; try reflexivity; intros; congruence.
    + destruct (py_int (get_one qs "maxRepliesPerThread")) as [m|] eqn:Em;
        cbn [bindO].
      * left. eexists. split; [reflexivity|]. cbn.
        repeat split; try reflexivity; intros; congruence.
      * right. split; [reflexivity|]. right. split; [exact E2|reflexivity].
  - destruct (py_int (get_one qs "maxResults")) as [n|] eqn:En; cbn [bindO].
    + destruct (String.eqb (get_one qs "maxRepliesPerThread") "") eqn:E2;
        [apply String.eqb_eq in E2 | apply String.eqb_neq in E2].
      * cbn [bindO]. left. eexists. split; [reflexivity|]. cbn.
        repeat split; try reflexivity; intros; congruence.
      * destruct (py_int (get_one qs "maxRepliesPerThread")) as [m|] eqn:Em;
          cbn [bindO].
        -- left. eexists. split; [reflexivity|]. cbn.
           repeat split; try reflexivity; intros; congruence.
        -- right. split; [reflexivity|]. right.
           split; [exact E2|reflexivity].
    + right. split; [reflexivity|]. left. split; [exact E1|reflexivity].
Qed.

Lemma fuel_free_parse_query :
  forall path, fuel_free (_parse_query urlparse parse_qs py_int path).
Proof.
  intro path. unfold _parse_query.
  destruct (urlparse path) as [parsed|]; [|discriminate].
  destruct (parse_qs (query parsed)) as [qs|]; [|discriminate].
  assert (Hi : forall s, fuel_free (int_of py_int s))
    by (intro s; unfold int_of; destruct (py_int s); discriminate).
  apply fuel_free_bind.
  - destruct (String.eqb (get_one qs "maxResults") ""); [discriminate|].
    apply fuel_free_bind; [apply Hi|intro; discriminate].
  - intro mr. apply fuel_free_bind; [|intro; discriminate].
    destruct (String.eqb (get_one qs "maxRepliesPerThread") "");
      [discriminate|apply Hi].
Qed.

(** The page, or the exception, of the aggregator as [do_GET_try] leaves it. *)
Definition page_response (o : outcome comment_page) : outcome response :=
  match o with
  | Ok data => Ok (mkResponse 200 (PageBody data))
  | Raise e => Raise e
  | OutOfFuel => OutOfFuel
  end.

Lemma do_GET_try_unfold :
  forall environ path st,
    do_GET_try urlparse parse_qs py_int upstream environ path st
    = match _parse_query urlparse parse_qs py_int path with
      | Ok q =>
          if String.eqb (resolve_video_id urlparse parse_qs q) "" then
            (Ok (mkResponse 400 (ErrorBody missing_identifier_message)), st)
          else
            match get_env_api_key environ with
            | Ok key =>
                let r :=
                  fetch_comment_threads upstream
                    (resolve_video_id urlparse parse_qs q) key
                    (fst (normalize_params (q_maxResults q) (q_order q)))
                    (q_pageToken q)
                    (snd (normalize_params (q_maxResults q) (q_order q)))
                    (q_includeReplies q) (q_maxRepliesPerThread q) st in
                (page_response (fst r), snd r)
            | Raise (RuntimeError msg) =>
                (Ok (mkResponse 500 (ErrorBody msg)), st)
            | Raise e => (Raise e, st)
            | OutOfFuel => (OutOfFuel, st)
            end
      | Raise e => (Raise e, st)
      | OutOfFuel => (OutOfFuel, st)
      end.
Proof.
  intros environ path st. unfold do_GET_try, bind at 1, lift at 1.
  destruct (_parse_query urlparse parse_qs py_int path) as [q|e|];
    try reflexivity.
  cbn zeta.
  destruct (String.eqb (resolve_video_id urlparse parse_qs q) "");
    [reflexivity|].
  destruct (get_env_api_key environ) as [key|[| | |msg|msg]|]; try reflexivity.
  unfold bind at 1, lift.
  destruct (normalize_params (q_maxResults q) (q_order q)) as [mr od].
  cbn [fst snd]. unfold bind.
  destruct (fetch_comment_threads upstream _ _ _ _ _ _ _ st)
    as [[data|e|] st']; reflexivity.
Qed.

(** The three ways [do_GET_try] can go: it answers without any call (400 or
    the missing-credential 500), the query does not parse, or it runs the
    aggregator with the resolved identifier, the trimmed credential and the
    normalised parameters. *)
Lemma do_GET_try_cases :
  forall environ path st,
    (exists resp,
        do_GET_try urlparse parse_qs py_int upstream environ path st
        = (Ok resp, st)
        /\ (resp = mkResponse 400 (ErrorBody missing_identifier_message)
            \/ resp = mkResponse 500 (ErrorBody missing_key_message)))
    \/ (exists e,
          do_GET_try urlparse parse_qs py_int upstream environ path st
          = (Raise e, st))
    \/ (exists q v,
          _parse_query urlparse parse_qs py_int path = Ok q
          /\ resolve_video_id urlparse parse_qs q <> ""
          /\ environ = Some v /\ strip v <> ""
          /\ do_GET_try urlparse parse_qs py_int upstream environ path st
             = (page_response
                  (fst (fetch_comment_threads upstream
                          (resolve_video_id urlparse parse_qs q) (strip v)
                          (fst (normalize_params (q_maxResults q) (q_order q)))
                          (q_pageToken q)
                          (snd (normalize_params (q_maxResults q) (q_order q)))
                          (q_includeReplies q) (q_maxRepliesPerThread q) st)),
                snd (fetch_comment_threads upstream
                       (resolve_video_id urlparse parse_qs q) (strip v)
                       (fst (normalize_params (q_maxResults q) (q_order q)))
                       (q_pageToken q)
                       (snd (normalize_params (q_maxResults q) (q_order q)))
                       (q_includeReplies q) (q_maxRepliesPerThread q) st))).
Proof.
  intros environ path st. rewrite do_GET_try_unfold.
  pose proof (fuel_free_parse_query path) as Hff.
  destruct (_parse_query urlparse parse_qs py_int path) as [q|e|];
    [| right; left; exists e; reflexivity | exfalso; apply Hff; reflexivity].
  destruct (String.eqb (resolve_video_id urlparse parse_qs q) "") eqn:Er.
  - left. eexists. split; [reflexivity|]. left. reflexivity.
  - apply String.eqb_neq in Er.
    destruct (get_env_api_key_trimmed environ)
      as [(v & -> & Hv & Hk & _) | (_ & Hk)]; rewrite Hk.
    + right. right. exists q, v. repeat split; try assumption; reflexivity.
    + left. eexists. split; [reflexivity|]. right. reflexivity.
Qed.

End HandlerRuns.

Lemma parse_query_outcome_witness :
  exists q,
    _parse_query Ref.urlparse Ref.parse_qs Ref.py_int
      "/api/comments?videoId=+abc+&order=&maxResults=7" = Ok q
    /\ q_videoId q = "abc" /\ q_order q = None
    /\ q_maxResults q = Some 7 /\ q_maxRepliesPerThread q = 20.
Proof.
  destruct (parse_query_outcome Ref.urlparse Ref.parse_qs Ref.py_int
              "/api/comments?videoId=+abc+&order=&maxResults=7"
              (mkParse "" "" "/api/comments" ""
                 "videoId=+abc+&order=&maxResults=7" "")
              [("videoId", [" abc "]); ("maxResults", ["7"])]
              eq_refl eq_refl)
    as [(q & Hq & _ & Hv & _ & Ho & _ & Hm & Hd & _) | (Hq & _)].
  - exists q. split; [exact Hq|]. split; [exact Hv|]. split; [exact Ho|].
    split.
    + apply Hm. intro H; discriminate H.
    + apply Hd. reflexivity.
  - vm_compute in Hq. discriminate Hq.
Defined.

(** *** Sending the response

    [_send] serialises the body and writes status, headers and payload to
    the connection; either step can raise (an unencodable character, a
    broken connection).  The connection is a parameter: any state, and for
    every response either success or an exception. *)

(** The 500 of the outer [except] clause. *)
Definition internal_error (ex : exn) : response :=
  mkResponse 500 (ErrorDetailsBody "Internal server error" ex).

(** What a response of the handler looks like. *)
Definition answer_shape (r : response) : Prop :=
  (status r = 200 /\ exists page, payload r = PageBody page)
  \/ ((status r = 400 \/ status r = 500)
      /\ has_error_field (payload r) = true).

Section Sending.

Variable urlparse : string -> option ParseResult.
Variable parse_qs : string -> option qsdict.
Variable py_int : string -> option Z.
Variable World : Type.
Variable upstream : request -> World -> reply * World.
Variable Net : Type.
(** [_send]: [None] when the response was written, [Some ex] when it raised. *)
Variable _send : response -> Net -> option exn * Net.

(** What [do_GET] did on the connection: the responses it handed to
    [_send], in order, and the exception that left [do_GET], if any. *)
Record served : Type := mkServed {
  attempts : list response;
  escaped : option exn
}.

(** The whole of [do_GET].  A [_send] inside the [try] that raises is caught
    by [except Exception], whose own [_send] is not guarded.  [None] marks a
    run of the model that ran out of fuel. *)
Definition serve_GET (environ : option string) (path : string)
    (st : io_state World) (net : Net)
  : option served * io_state World * Net :=
  match do_GET_try urlparse parse_qs py_int upstream environ path st with
  | (Ok resp, st') =>
      match _send resp net with
      | (None, net1) => (Some (mkServed [resp] None), st', net1)
      | (Some ex, net1) =>
          match _send (internal_error ex) net1 with
          | (r, net2) =>
              (Some (mkServed [resp; internal_error ex] r), st', net2)
          end
      end
  | (Raise ex, st') =>
      match _send (internal_error ex) net with
      | (r, net1) => (Some (mkServed [internal_error ex] r), st', net1)
      end
  | (OutOfFuel, st') => (None, st', net)
  end.

Lemma do_GET_try_answers :
  forall environ path st,
    (exists resp,
        fst (do_GET_try urlparse parse_qs py_int upstream environ path st)
        = Ok resp /\ answer_shape resp)
    \/ exists ex,
         fst (do_GET_try urlparse parse_qs py_int upstream environ path st)
         = Raise ex.
Proof.
  intros environ path st.
  destruct (do_GET_try_cases urlparse parse_qs py_int World upstream environ
              path st)
    as [(resp & -> & [-> | ->]) | [(e & ->) | (q & v & _ & _ & _ & _ & ->)]].
  - left. eexists. split; [reflexivity|]. right. split; [left|]; reflexivity.
  - left. eexists. split; [reflexivity|]. right. split; [right|]; reflexivity.
  - right. exists e. reflexivity.
  - match goal with
    | |- context [fetch_comment_threads ?u ?a ?b ?c ?d ?e ?f ?g ?s] =>
        pose proof (fetch_comment_threads_fuel_free World u a b c d e f g s)
          as Hff;
        destruct (fetch_comment_threads u a b c d e f g s) as [[page|e'|] st']
    end; cbn [fst snd page_response] in *.
    + left. eexists. split; [reflexivity|]. left.
      split; [reflexivity|]. eexists; reflexivity.
    + right. exists e'. reflexivity.
    + congruence.
Qed.

End Sending.

Arguments serve_GET urlparse parse_qs py_int {World} upstream {Net} _send
  environ path st net.

Lemma internal_error_shape : forall ex, answer_shape (internal_error ex).
Proof. intro ex. right. split; [right|]; reflexivity. Qed.

(** X14: [do_GET] hands a response to [_send] once or twice.  The first is
    the response it settled on, of status 200 with the page or 400 or 500
    with an [error] field; when that [_send] succeeds nothing more is sent
    and no exception leaves [do_GET].  A second response is sent only after
    a [_send] inside the [try] raised, and is the 500 "Internal server
    error" with that exception as details.  No exception of the parsing, the
    resolver, the credential or the aggregator leaves [do_GET]: one escapes
    only when [_send] raises while it sends the 500 "Internal server error"
    of the [except] clause, and it is that [_send]'s exception. *)
Theorem serve_GET_sends :
  forall (urlparse : string -> option ParseResult)
         (parse_qs : string -> option qsdict) (py_int : string -> option Z)
         (World : Type) (upstream : request -> World -> reply * World)
         (Net : Type) (_send : response -> Net -> option exn * Net)
         (environ : option string) (path : string) (st : io_state World)
         (net : Net),
  exists first more out net',
    serve_GET urlparse parse_qs py_int upstream _send environ path st net
    = (Some (mkServed (first :: more) out),
       snd (do_GET urlparse parse_qs py_int upstream environ path st), net')
    /\ fst (do_GET urlparse parse_qs py_int upstream environ path st)
       = Ok first
    /\ answer_shape first
    /\ (fst (_send first net) = None -> more = [] /\ out = None)
    /\ (more <> [] ->
        exists ex,
          fst (_send first net) = Some ex
          /\ more = [internal_error ex]
          /\ out = fst (_send (internal_error ex) (snd (_send first net))))
    /\ (forall ex2,
          out = Some ex2 ->
          exists ex net0,
            last (first :: more) first = internal_error ex
            /\ fst (_send (internal_error ex) net0) = Some ex2).
Proof.
  intros urlparse parse_qs py_int World upstream Net _send environ path st net.
  unfold serve_GET, do_GET.
  destruct (do_GET_try_answers urlparse parse_qs py_int World upstream
              environ path st) as [(resp & Hr & Hshape) | (ex & Hr)];
    destruct (do_GET_try urlparse parse_qs py_int upstream environ path st)
      as [o st'] eqn:Etry; cbn [fst] in Hr; subst o; cbn [fst snd].
  - destruct (_send resp net) as [[ex|] net1] eqn:Es1.
    + destruct (_send (internal_error ex) net1) as [r net2] eqn:Es2.
      exists resp, [internal_error ex], r, net2.
      split; [reflexivity|]. split; [reflexivity|]. split; [exact Hshape|].
      rewrite Es1. cbn [fst snd].
      split; [intro H; discriminate H|]. split.
      * intros _. exists ex. split; [reflexivity|]. split; [reflexivity|].
        rewrite Es2. reflexivity.
      * intros ex2 ->. exists ex, net1. split; [reflexivity|].
        rewrite Es2. reflexivity.
    + exists resp, [], None, net1.
      split; [reflexivity|]. split; [reflexivity|]. split; [exact Hshape|].
      rewrite Es1. cbn [fst snd].
      split; [intros _; split; reflexivity|]. split.
      * intro H. exfalso. apply H. reflexivity.
      * intros ex2 H. discriminate H.
  - destruct (_send (internal_error ex) net) as [r net1] eqn:Es1.
    exists (internal_error ex), [], r, net1.
    split; [reflexivity|]. split; [reflexivity|].
    split; [apply internal_error_shape|].
    rewrite Es1. cbn [fst snd].
    split; [intros ->; split; reflexivity|]. split.
    + intro H. exfalso. apply H. reflexivity.
    + intros ex2 ->. exists ex, net. split; [reflexivity|].
      rewrite Es1. reflexivity.
Qed.

(** A connection on which a page cannot be written (its text does not
    encode) and everything else can: the page of the demonstration service
    is answered by the 500 of the [except] clause. *)
Example serve_GET_unencodable_page :
  let send := fun (r : response) (n : unit) =>
                (if status r =? 200 then Some ValueError else None, n) in
  match serve_GET Ref.urlparse Ref.parse_qs Ref.py_int Demo.service send
          (Some "k") "/api/comments?videoId=abc" Demo.start tt with
  | (Some (mkServed [r1; r2] None), _, _) =>
      status r1 = 200 /\ r2 = internal_error ValueError
  | _ => False
  end.
Proof. vm_compute. split; reflexivity. Qed.

(** A connection that is gone: the 400 is tried inside the [try], the 500 in
    the [except] clause, and the exception of that last [_send] escapes. *)
Example serve_GET_broken_connection :
  let send := fun (r : response) (n : unit) =>
                (Some (RequestException "broken pipe"), n) in
  serve_GET Ref.urlparse Ref.parse_qs Ref.py_int Demo.service send
    (Some "k") "/api/comments" Demo.start tt
  = (Some (mkServed
             [mkResponse 400 (ErrorBody missing_identifier_message);
              internal_error (RequestException "broken pipe")]
             (Some (RequestException "broken pipe"))),
     Demo.start, tt).
Proof. vm_compute. reflexivity. Qed.

(** X15: a request that carries an identifier is answered 500 with the
    message naming the missing variable when the credential is unset or
    blank, and no upstream call is made. *)
Theorem do_GET_missing_credential :
  forall (urlparse : string -> option ParseResult)
         (parse_qs : string -> option qsdict) (py_int : string -> option Z)
         (World : Type) (upstream : request -> World -> reply * World)
         (environ : option string) (path : string) (st : io_state World)
         (q : query_params),
    _parse_query urlparse parse_qs py_int path = Ok q ->
    resolve_video_id urlparse parse_qs q <> "" ->
    (environ = None \/ exists v, environ = Some v /\ strip v = "") ->
    do_GET urlparse parse_qs py_int upstream environ path st
    = (Ok (mkResponse 500 (ErrorBody missing_key_message)), st).
Proof.
  intros urlparse parse_qs py_int World upstream environ path st q Hq Hr He.
  unfold do_GET. rewrite do_GET_try_unfold, Hq.
  apply String.eqb_neq in Hr. rewrite Hr.
  assert (Hk : get_env_api_key environ
               = Raise (RuntimeError missing_key_message)).
  { destruct He as [-> | (v & -> & Hv)]; unfold get_env_api_key;
      [reflexivity|]. rewrite Hv. reflexivity. }
  rewrite Hk. reflexivity.
Qed.

Lemma do_GET_missing_credential_witness :
  do_GET Ref.urlparse Ref.parse_qs Ref.py_int Demo.service (Some "  ")
    "/api/comments?videoId=abc" Demo.start
  = (Ok (mkResponse 500 (ErrorBody missing_key_message)), Demo.start).
Proof.
  apply (do_GET_missing_credential Ref.urlparse Ref.parse_qs Ref.py_int nat
           Demo.service (Some "  ") "/api/comments?videoId=abc" Demo.start
           (mkQuery "" "abc" None None false None 20)).
  - vm_compute. reflexivity.
  - vm_compute. intro H; discriminate H.
  - right. exists "  ". split; [reflexivity|]. vm_compute. reflexivity.
Defined.

(** X16: when the query parses, an identifier is resolved and the credential
    is set, the first upstream call is the thread listing for that
    identifier (the [videoId] parameter itself when it is given), with the
    trimmed credential, a page size between 1 and 100 and the order
    ["relevance"] or ["time"]; every later call is a reply-listing call. *)
Theorem do_GET_upstream_request :
  forall (urlparse : string -> option ParseResult)
         (parse_qs : string -> option qsdict) (py_int : string -> option Z)
         (World : Type) (upstream : request -> World -> reply * World)
         (path : string) (st : io_state World) (q : query_params)
         (v : string),
    _parse_query urlparse parse_qs py_int path = Ok q ->
    resolve_video_id urlparse parse_qs q <> "" ->
    strip v <> "" ->
    exists mr od answer calls,
      trace (snd (do_GET urlparse parse_qs py_int upstream (Some v) path st))
      = trace st
        ++ (thread_list_request (resolve_video_id urlparse parse_qs q)
              (strip v) mr (q_pageToken q) od, answer) :: calls
      /\ 1 <= mr <= 100
      /\ (od = "relevance" \/ od = "time")
      /\ Forall (fun c => is_comments_call c = true) calls
      /\ (q_videoId q <> "" ->
          resolve_video_id urlparse parse_qs q = q_videoId q).
Proof.
  intros urlparse parse_qs py_int World upstream path st q v Hq Hr Hv.
  set (mr := fst (normalize_params (q_maxResults q) (q_order q))).
  set (od := snd (normalize_params (q_maxResults q) (q_order q))).
  destruct (fetch_summary World upstream
              (resolve_video_id urlparse parse_qs q) (strip v) mr
              (q_pageToken q) od (q_includeReplies q)
              (q_maxRepliesPerThread q) st)
    as (calls & out & w' & Hrun & Hc & _).
  exists mr, od, (fst (upstream (thread_list_request
                                   (resolve_video_id urlparse parse_qs q)
                                   (strip v) mr (q_pageToken q) od)
                         (world st))), calls.
  split.
  - unfold do_GET. rewrite do_GET_try_unfold, Hq.
    pose proof Hr as Hr'. apply String.eqb_neq in Hr'. rewrite Hr'.
    unfold get_env_api_key. apply String.eqb_neq in Hv. rewrite Hv.
    cbn zeta. fold mr od. rewrite Hrun. cbn [fst snd].
    destruct out; reflexivity.
  - split; [subst mr; unfold normalize_params; cbn [fst];
            destruct (q_maxResults q); lia|].
    split; [apply normalize_params_order_cases|].
    split; [exact Hc|].
    intro Hvid. unfold resolve_video_id.
    apply String.eqb_neq in Hvid. rewrite Hvid. reflexivity.
Qed.

Lemma do_GET_upstream_request_witness :
  exists mr od answer calls,
    trace (snd (do_GET Ref.urlparse Ref.parse_qs Ref.py_int Demo.service
                  (Some " k ")
                  "/api/comments?videoId=abc&url=https://youtu.be/zzz&maxResults=500&order=Newest"
                  Demo.start))
    = trace Demo.start
      ++ (thread_list_request "abc" "k" mr None od, answer) :: calls
    /\ 1 <= mr <= 100
    /\ (od = "relevance" \/ od = "time")
    /\ Forall (fun c => is_comments_call c = true) calls
    /\ ("abc" <> "" -> "abc" = "abc").
Proof.
  apply (do_GET_upstream_request Ref.urlparse Ref.parse_qs Ref.py_int nat
           Demo.service
           "/api/comments?videoId=abc&url=https://youtu.be/zzz&maxResults=500&order=Newest"
           Demo.start
           (mkQuery "https://youtu.be/zzz" "abc" None (Some "Newest") false
              (Some 500) 20)
           " k ").
  - vm_compute. reflexivity.
  - vm_compute. intro H; discriminate H.
  - vm_compute. intro H; discriminate H.
Defined.

(** X17: whenever an upstream call made for a request fails, it is the last
    call made and the answer is 500 ["Internal server error"] with that
    exception as details: nothing is retried and no partial page is sent. *)
Theorem do_GET_upstream_failure :
  forall (urlparse : string -> option ParseResult)
         (parse_qs : string -> option qsdict) (py_int : string -> option Z)
         (World : Type) (upstream : request -> World -> reply * World)
         (environ : option string) (path : string) (st : io_state World)
         (pre post : list (request * reply)) (req : request) (e : exn),
    trace (snd (do_GET urlparse parse_qs py_int upstream environ path st))
    = trace st ++ pre ++ (req, Fail e) :: post ->
    post = []
    /\ fst (do_GET urlparse parse_qs py_int upstream environ path st)
       = Ok (mkResponse 500 (ErrorDetailsBody "Internal server error" e)).
Proof.
  intros urlparse parse_qs py_int World upstream environ path st pre post
    req e H.
  assert (Hnil : trace st = trace st ++ pre ++ (req, Fail e) :: post -> False).
  { intro Hc. rewrite <- (app_nil_r (trace st)) in Hc at 1.
    apply app_inv_head in Hc. destruct pre; discriminate Hc. }
  unfold do_GET in *.
  destruct (do_GET_try_cases urlparse parse_qs py_int World upstream environ
              path st)
    as [(resp & Hrun & _) | [(e' & Hrun) | (q & v & _ & _ & _ & _ & Hrun)]];
    rewrite Hrun in *.
  - exfalso. destruct resp. apply Hnil. exact H.
  - exfalso. apply Hnil. exact H.
  - match type of Hrun with
    | context [fetch_comment_threads ?u ?a ?b ?c ?d ?f ?g ?h ?s] =>
        pose proof (fetch_summary World u a b c d f g h s) as Hs;
        cbn zeta in Hs;
        destruct Hs as (calls & out & w' & Hf & _ & _ & _ & Hff & _);
        rewrite Hf in *
    end.
    cbn [fst snd trace page_response] in *.
    destruct out as [data|ex|]; cbn [page_response fst snd trace] in *;
      apply app_inv_head in H;
      destruct (Hff pre req e post H) as [-> Ho]; try discriminate Ho.
    injection Ho as <-. split; reflexivity.
Qed.

Lemma do_GET_upstream_failure_witness :
  @nil (request * reply) = []
  /\ fst (do_GET Ref.urlparse Ref.parse_qs Ref.py_int Faulty.service
            (Some "k") "/api/comments?videoId=abc&includeReplies=on"
            Demo.short_start)
     = Ok (mkResponse 500
             (ErrorDetailsBody "Internal server error"
                (RequestException "503"))).
Proof.
  apply (do_GET_upstream_failure Ref.urlparse Ref.parse_qs Ref.py_int unit
           Faulty.service (Some "k")
           "/api/comments?videoId=abc&includeReplies=on" Demo.short_start
           [(CommentThreads "abc" 20 "relevance" "k" None,
             Resp (JObj [("items",
                          JList [Demo.thread_json; Demo.thread_json])]))]
           [] (Comments (JStr "top-1") 20 "k" None)
           (RequestException "503")).
  vm_compute. reflexivity.
Defined.
